(** * WeatherMCP: a shallow embedding of [src/app.py]

    The program is a small client ([SimpleMCPClient]) that connects to a
    remote tool server, caches the advertised tools, calls the weather tool
    with a parsed location and turns the loosely typed answer into display
    text.

    Conventions of the embedding:
    - a Python [str] is the list of its Unicode code points;
    - an operation that may raise returns a [result]; the two blanket
      handlers of the source ([except Exception]) are the combinator
      [try_except_Exception];
    - the object [self] and the record of every call made on the transport
      are threaded through a small state-and-error monad [M];
    - what the remote side answers is an argument ([Remote]) of the
      operations; the standard-library routines the client only calls
      ([str.lower], [json.loads], [json.dumps], [repr] of a string) are
      the variables of Section [Client]. *)

From Stdlib Require Import List NArith ZArith Bool String Ascii Lia DecimalString.
Import ListNotations.

Local Open Scope N_scope.
Local Open Scope list_scope.

(** ** Python strings *)

Definition char := N.
Definition str := list char.

(** Source literals are written as in [app.py]; [utf8] decodes the bytes of
    a literal into code points. *)
Definition cont (a : ascii) : N := N_of_ascii a mod 64.

Fixpoint utf8 (s : string) : str :=
  match s with
  | EmptyString => []
  | String a rest =>
      let b := N_of_ascii a in
      if b <? 128 then b :: utf8 rest
      else if b <? 224 then
        match rest with
        | String a1 rest1 => ((b mod 32) * 64 + cont a1) :: utf8 rest1
        | _ => []
        end
      else if b <? 240 then
        match rest with
        | String a1 (String a2 rest2) =>
            ((b mod 16) * 4096 + cont a1 * 64 + cont a2) :: utf8 rest2
        | _ => []
        end
      else
        match rest with
        | String a1 (String a2 (String a3 rest3)) =>
            ((b mod 8) * 262144 + cont a1 * 4096 + cont a2 * 64 + cont a3)
              :: utf8 rest3
        | _ => []
        end
  end.

(** The newline of the source's [\n] escapes, and the comma. *)
Definition nl : str := [10].
Definition comma : char := 44.

Fixpoint str_eqb (a b : str) : bool :=
  match a, b with
  | [], [] => true
  | x :: a', y :: b' => (x =? y) && str_eqb a' b'
  | _, _ => false
  end.

(** [not s] for a string [s]. *)
Definition is_empty (s : str) : bool :=
  match s with [] => true | _ => false end.

(** [c in s] for a single character [c]. *)
Definition char_in (c : char) (s : str) : bool := existsb (N.eqb c) s.

(** [needle in hay]: substring test. *)
Fixpoint startswith (p s : str) : bool :=
  match p, s with
  | [], _ => true
  | a :: p', b :: s' => (a =? b) && startswith p' s'
  | _ :: _, [] => false
  end.

Fixpoint contains (needle hay : str) : bool :=
  startswith needle hay
  || match hay with
     | [] => false
     | _ :: rest => contains needle rest
     end.

(** [sep.join(parts)]. *)
Fixpoint join (sep : str) (parts : list str) : str :=
  match parts with
  | [] => []
  | [p] => p
  | p :: ps => p ++ sep ++ join sep ps
  end.

(** [str.isspace] on one code point: the whitespace of [str.strip()]. *)
Definition isspace (c : char) : bool :=
  ((9 <=? c) && (c <=? 13))
  || ((28 <=? c) && (c <=? 32))
  || (c =? 133) || (c =? 160) || (c =? 5760)
  || ((8192 <=? c) && (c <=? 8202))
  || (c =? 8232) || (c =? 8233) || (c =? 8239) || (c =? 8287)
  || (c =? 12288).

Fixpoint lstrip (s : str) : str :=
  match s with
  | [] => []
  | c :: rest => if isspace c then lstrip rest else s
  end.

Definition rstrip (s : str) : str := rev (lstrip (rev s)).

(** [s.strip()] *)
Definition strip (s : str) : str := rstrip (lstrip s).

(** [s.split(sep, 1)]: at most one cut, at the first separator. *)
Fixpoint cut_first (sep : char) (s : str) : option (str * str) :=
  match s with
  | [] => None
  | c :: rest =>
      if c =? sep then Some ([], rest)
      else match cut_first sep rest with
           | Some (l, r) => Some (c :: l, r)
           | None => None
           end
  end.

Definition split1 (sep : char) (s : str) : list str :=
  match cut_first sep s with
  | Some (l, r) => [l; r]
  | None => [s]
  end.

(** [str(n)] for an integer. *)
Definition str_of_int (z : Z) : str :=
  map N_of_ascii (list_ascii_of_string (NilZero.string_of_int (Z.to_int z))).

(** ** Exceptions and results *)

Inductive exn_class :=
| JSONDecodeError
| ValueError
| AttributeError
| KeyError
| OtherException      (* any other subclass of Exception *)
| NotAnException.     (* BaseException only: KeyboardInterrupt, CancelledError *)

Record exn := mkExn { exn_cls : exn_class; exn_msg : str }.

(** [isinstance(e, Exception)] *)
Definition is_Exception (e : exn) : bool :=
  match exn_cls e with NotAnException => false | _ => true end.

(** [isinstance(e, json.JSONDecodeError)] *)
Definition is_JSONDecodeError (e : exn) : bool :=
  match exn_cls e with JSONDecodeError => true | _ => false end.

Inductive result (A : Type) :=
| Ok (a : A)
| Raise (e : exn).
Arguments Ok {A} a.
Arguments Raise {A} e.

(** ** Location parsing ([_get_weather], lines 66-71) *)

Definition parse_location (location : str) : result (str * str) :=
  if char_in comma location then
    match map strip (split1 comma location) with
    | [city; country] => Ok (city, country)
    | _ => Raise (mkExn ValueError
                    (utf8 "not enough values to unpack (expected 2, got 1)"))
    end
  else Ok (strip location, []).

(** ** JSON values, as [json.loads] builds them

    A float is carried by its [repr] text, the only thing the client ever
    does with one; a dict is the list of its items in insertion order. *)

#[warnings="-register-all"]
Inductive json :=
| JNull
| JBool (b : bool)
| JInt (z : Z)
| JFloat (repr : str)
| JStr (s : str)
| JList (items : list json)
| JDict (items : list (str * json)).

(** [key in d] and [d[key]] / [d.get(key)]. *)
Fixpoint dict_lookup (key : str) (d : list (str * json)) : option json :=
  match d with
  | [] => None
  | (k, v) :: rest => if str_eqb key k then Some v else dict_lookup key rest
  end.

Definition dict_has (key : str) (d : list (str * json)) : bool :=
  match dict_lookup key d with Some _ => true | None => false end.

(** [d.get(key, default)] *)
Definition dict_get (d : list (str * json)) (key : str) (default : json) : json :=
  match dict_lookup key d with Some v => v | None => default end.

(** [type(v).__name__] *)
Definition type_name (v : json) : str :=
  match v with
  | JNull => utf8 "NoneType"
  | JBool _ => utf8 "bool"
  | JInt _ => utf8 "int"
  | JFloat _ => utf8 "float"
  | JStr _ => utf8 "str"
  | JList _ => utf8 "list"
  | JDict _ => utf8 "dict"
  end.

(** ** The remote side and the client object *)

Record Tool := mkTool { name : str }.

(** One element of [result.content], seen through the three probes of the
    extraction loop: its [text] attribute when it has one, [str()] of its
    [content] attribute when it has one, and [str()] of the item itself. *)
Record content_item := mkItem {
  item_text : option str;
  item_content : option str;
  item_str : str
}.

(** The [content] attribute of a tool result: absent, a list of items, or
    any other object (with its truth value). *)
Inductive result_content :=
| NoContentAttr
| ContentList (items : list content_item)
| ContentObject (truthy : bool) (obj : content_item).

Record CallToolResult := mkResult { content : result_content }.

Inductive stream := ReadStream | WriteStream.

Record ClientSession := mkSession { read_stream : stream; write_callable : stream }.

(** A context entered into an [AsyncExitStack]. *)
Inductive resource :=
| SseTransport (url : str)
| SessionContext (s : ClientSession).

Record AsyncExitStack := mkStack { contexts : list resource }.

Record SimpleMCPClient := mkClient {
  session : option ClientSession;
  connected : bool;
  tools : list Tool;
  exit_stack : option AsyncExitStack;
  server_url : str
}.

(** [SimpleMCPClient.__init__] *)
Definition init_client : SimpleMCPClient :=
  {| session := None;
     connected := false;
     tools := [];
     exit_stack := None;
     server_url := utf8 "https://chris4k-weather.hf.space/gradio_api/mcp/sse" |}.

(** Every call that reaches the transport or the connection resource is
    recorded, in order. *)
Inductive event :=
| EvAclose (released : list resource)
| EvSseClient (url : str)
| EvSessionEnter
| EvInitialize
| EvListTools
| EvCallTool (tool : str) (params : list (str * str)).

(** What the remote side and the connection resources answer. *)
Record Remote := mkRemote {
  on_aclose : result unit;
  on_sse_client : result (stream * stream);
  on_session_enter : result unit;
  on_initialize : result unit;
  on_list_tools : result (list Tool);
  on_call_tool : str -> list (str * str) -> result CallToolResult
}.

(** ** The monad: [self], the record of calls, and exceptions *)

Record World := mkWorld { self : SimpleMCPClient; calls : list event }.

Definition M (A : Type) := World -> result A * World.

Definition ret {A} (a : A) : M A := fun w => (Ok a, w).

Definition raise {A} (e : exn) : M A := fun w => (Raise e, w).

Definition bind {A B} (m : M A) (k : A -> M B) : M B :=
  fun w => match m w with
           | (Ok a, w') => k a w'
           | (Raise e, w') => (Raise e, w')
           end.

Declare Scope monad_scope.
Delimit Scope monad_scope with monad.
Notation "x <- m ;; k" := (bind m (fun x => k))
  (at level 61, m at next level, right associativity) : monad_scope.
Notation "m ;; k" := (bind m (fun _ => k))
  (at level 61, right associativity) : monad_scope.
Local Open Scope monad_scope.

(** [try: body except Exception as e: handler(e)]: what [body] did to
    [self] before it raised stays done. *)
Definition try_except_Exception {A} (body : M A) (handler : exn -> M A) : M A :=
  fun w => match body w with
           | (Ok a, w') => (Ok a, w')
           | (Raise e, w') =>
               if is_Exception e then handler e w' else (Raise e, w')
           end.

Definition lift {A} (r : result A) : M A := fun w => (r, w).

Definition get_self : M SimpleMCPClient := fun w => (Ok (self w), w).

Definition set_self (f : SimpleMCPClient -> SimpleMCPClient) : M unit :=
  fun w => (Ok tt, mkWorld (f (self w)) (calls w)).

Definition record (e : event) : M unit :=
  fun w => (Ok tt, mkWorld (self w) (calls w ++ [e])).

Definition set_session (s : option ClientSession) (c : SimpleMCPClient) :=
  mkClient s (connected c) (tools c) (exit_stack c) (server_url c).
Definition set_connected (b : bool) (c : SimpleMCPClient) :=
  mkClient (session c) b (tools c) (exit_stack c) (server_url c).
Definition set_tools (l : list Tool) (c : SimpleMCPClient) :=
  mkClient (session c) (connected c) l (exit_stack c) (server_url c).
Definition set_exit_stack (s : option AsyncExitStack) (c : SimpleMCPClient) :=
  mkClient (session c) (connected c) (tools c) s (server_url c).

(** [await stack.aclose()]: the callbacks are popped whether they raise or
    not, so the stack object is empty afterwards. *)
Definition aclose (net : Remote) (stack : AsyncExitStack) : M unit :=
  record (EvAclose (contexts stack)) ;;
  set_self (set_exit_stack (Some (mkStack []))) ;;
  lift (on_aclose net).

(** [await self.exit_stack.enter_async_context(cm)]: the context is pushed
    on the stack object only when entering it succeeds. *)
Definition push_context (r : resource) : M unit :=
  c <- get_self ;;
  match exit_stack c with
  | Some stack => set_self (set_exit_stack (Some (mkStack (r :: contexts stack))))
  | None => raise (mkExn AttributeError
              (utf8 "'NoneType' object has no attribute 'enter_async_context'"))
  end.

Definition enter_sse_client (net : Remote) (url : str) : M (stream * stream) :=
  record (EvSseClient url) ;;
  t <- lift (on_sse_client net) ;;
  push_context (SseTransport url) ;;
  ret t.

Definition enter_client_session (net : Remote) (r w : stream) : M ClientSession :=
  record EvSessionEnter ;;
  lift (on_session_enter net) ;;
  push_context (SessionContext (mkSession r w)) ;;
  ret (mkSession r w).

Definition session_initialize (net : Remote) : M unit :=
  c <- get_self ;;
  match session c with
  | Some _ => record EvInitialize ;; lift (on_initialize net)
  | None => raise (mkExn AttributeError
              (utf8 "'NoneType' object has no attribute 'initialize'"))
  end.

Definition session_list_tools (net : Remote) : M (list Tool) :=
  c <- get_self ;;
  match session c with
  | Some _ => record EvListTools ;; lift (on_list_tools net)
  | None => raise (mkExn AttributeError
              (utf8 "'NoneType' object has no attribute 'list_tools'"))
  end.

Definition session_call_tool (net : Remote) (tool : str) (params : list (str * str))
  : M CallToolResult :=
  c <- get_self ;;
  match session c with
  | Some _ => record (EvCallTool tool params) ;; lift (on_call_tool net tool params)
  | None => raise (mkExn AttributeError
              (utf8 "'NoneType' object has no attribute 'call_tool'"))
  end.

(** ** [SimpleMCPClient._connect] and [connect] (lines 19-52) *)

Definition msg_connected (tool_names : list str) : str :=
  utf8 "✅ Connected to weather server!" ++ nl
  ++ utf8 "Available tools: " ++ join (utf8 ", ") tool_names.

Definition msg_connection_failed (e : exn) : str :=
  utf8 "❌ Connection failed: " ++ exn_msg e.

Definition _connect (net : Remote) : M str :=
  try_except_Exception
    (c <- get_self ;;
     match exit_stack c with
     | Some stack => aclose net stack
     | None => ret tt
     end ;;
     set_self (set_exit_stack (Some (mkStack []))) ;;
     sse_transport <- enter_sse_client net (server_url c) ;;
     let (read_stream, write_callable) := sse_transport in
     s <- enter_client_session net read_stream write_callable ;;
     set_self (set_session (Some s)) ;;
     session_initialize net ;;
     response <- session_list_tools net ;;
     set_self (set_tools response) ;;
     set_self (set_connected true) ;;
     c' <- get_self ;;
     let tool_names := map name (tools c') in
     ret (msg_connected tool_names))
    (fun e =>
       set_self (set_connected false) ;;
       ret (msg_connection_failed e)).

Definition connect (net : Remote) : M str := _connect net.

(** ** [SimpleMCPClient._get_weather] and [get_weather] (lines 54-135) *)

Definition msg_not_connected : str :=
  utf8 "❌ Not connected to server. Click Connect first.".

Definition msg_empty_location : str :=
  utf8 "❌ Please enter a location (e.g., 'Berlin, Germany')".

Definition msg_tool_not_found : str :=
  utf8 "❌ Weather tool not found on server".

Definition msg_no_content : str :=
  utf8 "❌ No content received from server".

Definition msg_failed (e : exn) : str :=
  utf8 "❌ Failed to get weather: " ++ exn_msg e.

Definition fence : str := utf8 "```".

(** The body of the extraction loop (lines 87-92), for one item. *)
Definition item_fragment (content_item : content_item) : str :=
  match item_text content_item with
  | Some text => text
  | None =>
      match item_content content_item with
      | Some nested => nested
      | None => item_str content_item
      end
  end.

(** Lines 83-96: [content_text] after the extraction. *)
Definition extract_content (res : CallToolResult) : str :=
  match content res with
  | NoContentAttr => []
  | ContentList [] => []
  | ContentList items =>
      fold_left (fun content_text content_item =>
                   content_text ++ item_fragment content_item) items []
  | ContentObject false _ => []
  | ContentObject true obj =>
      match item_text obj with
      | Some text => text
      | None => item_str obj
      end
  end.

Section Client.

Set Default Proof Using "Type".

(** [str.lower]: the Unicode lower-casing of the interpreter. *)
Variable lower : str -> str.

(** [repr] of a string, as it appears inside [str()] of a list or dict. *)
Variable repr_str : str -> str.

(** [json.loads]; it raises [JSONDecodeError] on text that is not JSON. *)
Variable json_loads : str -> result json.

(** [json.dumps(_, indent=2)] *)
Variable json_dumps_indent2 : json -> str.

(** [repr(v)] and [str(v)] of a parsed value; an f-string field [{v}]
    is [str(v)]. *)
Fixpoint py_repr (v : json) : str :=
  match v with
  | JNull => utf8 "None"
  | JBool true => utf8 "True"
  | JBool false => utf8 "False"
  | JInt z => str_of_int z
  | JFloat r => r
  | JStr s => repr_str s
  | JList items =>
      utf8 "[" ++ join (utf8 ", ") (map py_repr items) ++ utf8 "]"
  | JDict items =>
      utf8 "{"
      ++ join (utf8 ", ")
           (map (fun kv => repr_str (fst kv) ++ utf8 ": " ++ py_repr (snd kv))
              items)
      ++ utf8 "}"
  end.

Definition py_str (v : json) : str :=
  match v with
  | JStr s => s
  | _ => py_repr v
  end.

(** [weather.get(key, 'N/A')] on whatever [parsed['current_weather']]
    is: only a dict has a [get]. *)
Definition value_get (v : json) (key : str) (default : json) : result json :=
  match v with
  | JDict d => Ok (dict_get d key default)
  | _ => Raise (mkExn AttributeError
                  (utf8 "'" ++ type_name v
                   ++ utf8 "' object has no attribute 'get'"))
  end.

Definition NA : json := JStr (utf8 "N/A").

(** Lines 109-116. *)
Definition format_current_weather (parsed : list (str * json)) (weather : json)
  : result str :=
  let formatted :=
    utf8 "🌍 **" ++ py_str (dict_get parsed (utf8 "location") (JStr (utf8 "Unknown")))
    ++ utf8 "**" ++ nl ++ nl in
  match value_get weather (utf8 "temperature_celsius") NA with
  | Raise e => Raise e
  | Ok temperature =>
  let formatted :=
    formatted ++ utf8 "🌡️ Temperature: " ++ py_str temperature ++ utf8 "°C" ++ nl in
  match value_get weather (utf8 "weather_description") NA with
  | Raise e => Raise e
  | Ok description =>
  let formatted :=
    formatted ++ utf8 "🌤️ Conditions: " ++ py_str description ++ nl in
  match value_get weather (utf8 "wind_speed_kmh") NA with
  | Raise e => Raise e
  | Ok wind =>
  let formatted :=
    formatted ++ utf8 "💨 Wind: " ++ py_str wind ++ utf8 " km/h" ++ nl in
  match value_get weather (utf8 "humidity_percent") NA with
  | Raise e => Raise e
  | Ok humidity =>
  let formatted :=
    formatted ++ utf8 "💧 Humidity: " ++ py_str humidity ++ utf8 "%" ++ nl in
  Ok formatted
  end end end end.

(** Lines 117-124: the older answer format of the server. *)
Definition format_legacy (parsed : list (str * json)) : str :=
  utf8 "🌍 **" ++ py_str (dict_get parsed (utf8 "location") (JStr (utf8 "Unknown")))
  ++ utf8 "**" ++ nl ++ nl
  ++ utf8 "🌡️ Temperature: "
  ++ py_str (dict_get parsed (utf8 "temperature (°C)") NA) ++ utf8 "°C" ++ nl
  ++ utf8 "🌤️ Weather Code: " ++ py_str (dict_get parsed (utf8 "weather_code") NA) ++ nl
  ++ utf8 "🕐 Timezone: " ++ py_str (dict_get parsed (utf8 "timezone") NA) ++ nl
  ++ utf8 "🕒 Local Time: " ++ py_str (dict_get parsed (utf8 "local_time") NA) ++ nl.

(** Lines 104-126, for a parsed dict. *)
Definition format_dict (parsed : list (str * json)) : result str :=
  if dict_has (utf8 "error") parsed then
    match dict_lookup (utf8 "error") parsed with
    | Some err => Ok (utf8 "❌ Error: " ++ py_str err)
    | None => Raise (mkExn KeyError (utf8 "'error'"))
    end
  else if dict_has (utf8 "current_weather") parsed then
    match dict_lookup (utf8 "current_weather") parsed with
    | Some weather => format_current_weather parsed weather
    | None => Raise (mkExn KeyError (utf8 "'current_weather'"))
    end
  else if dict_has (utf8 "temperature (°C)") parsed then
    Ok (format_legacy parsed)
  else
    Ok (utf8 "✅ Weather data:" ++ nl ++ fence ++ utf8 "json" ++ nl
        ++ json_dumps_indent2 (JDict parsed) ++ nl ++ fence).

(** Lines 101-132: the inner [try] with its [except json.JSONDecodeError]
    and the final [return]. *)
Definition format_payload (content_text : str) : result str :=
  match json_loads content_text with
  | Ok (JDict parsed) => format_dict parsed
  | Ok _ => Ok (utf8 "✅ Raw result:" ++ nl ++ content_text)
  | Raise e =>
      if is_JSONDecodeError e then
        Ok (utf8 "✅ Weather data:" ++ nl ++ fence ++ nl
            ++ content_text ++ nl ++ fence)
      else Raise e
  end.

(** Lines 83-132: from the raw tool result to the display text. *)
Definition normalize (res : CallToolResult) : result str :=
  let content_text := extract_content res in
  if is_empty content_text then Ok msg_no_content
  else format_payload content_text.

(** Line 74: ['weather' in tool.name.lower()] and the [next(..., None)]
    over the cached tools. *)
Definition is_weather_tool (tool : Tool) : bool :=
  contains (utf8 "weather") (lower (name tool)).

Definition weather_params (city country : str) : list (str * str) :=
  [(utf8 "city", city); (utf8 "country", country)].

Definition _get_weather (net : Remote) (location : str) : M str :=
  try_except_Exception
    (loc <- lift (parse_location location) ;;
     let (city, country) := loc in
     c <- get_self ;;
     match find is_weather_tool (tools c) with
     | None => ret msg_tool_not_found
     | Some weather_tool =>
         let params := weather_params city country in
         res <- session_call_tool net (name weather_tool) params ;;
         lift (normalize res)
     end)
    (fun e => ret (msg_failed e)).

Definition get_weather (net : Remote) (location : str) : M str :=
  c <- get_self ;;
  if negb (connected c) then ret msg_not_connected
  else if is_empty (strip location) then ret msg_empty_location
  else _get_weather net location.

(** ** Notions used to state the properties *)

(** An empty or whitespace-only string. *)
Definition blank (s : str) : Prop := forallb isspace s = true.

(** The outcome of releasing the previous connection resource, when
    there is one. *)
Definition release_outcome (net : Remote) (c : SimpleMCPClient) : result unit :=
  match exit_stack c with
  | Some _ => on_aclose net
  | None => Ok tt
  end.

(** The exception of the first step of [_connect] that fails, in the
    order of the source: release, transport, session, negotiation, tool
    list. *)
Definition first_failure (net : Remote) (c : SimpleMCPClient) : option exn :=
  match release_outcome net c with
  | Raise e => Some e
  | Ok _ =>
  match on_sse_client net with
  | Raise e => Some e
  | Ok _ =>
  match on_session_enter net with
  | Raise e => Some e
  | Ok _ =>
  match on_initialize net with
  | Raise e => Some e
  | Ok _ =>
  match on_list_tools net with
  | Raise e => Some e
  | Ok _ => None
  end end end end end.

(** What an item contributes, by the attributes it has. *)
Inductive contributes : content_item -> str -> Prop :=
| contributes_text it text :
    item_text it = Some text -> contributes it text
| contributes_nested it nested :
    item_text it = None -> item_content it = Some nested ->
    contributes it nested
| contributes_str it :
    item_text it = None -> item_content it = None ->
    contributes it (item_str it).

(** A field of the summary: the string form of the value under [key],
    or [missing] when the dict has no such key. *)
Definition field (d : list (str * json)) (key missing : str) : str :=
  match dict_lookup key d with
  | Some v => py_str v
  | None => missing
  end.

(** The five-line summary of a [current_weather] answer. *)
Definition weather_summary (parsed weather : list (str * json)) : str :=
  utf8 "🌍 **" ++ field parsed (utf8 "location") (utf8 "Unknown") ++ utf8 "**"
  ++ nl ++ nl
  ++ utf8 "🌡️ Temperature: "
  ++ field weather (utf8 "temperature_celsius") (utf8 "N/A") ++ utf8 "°C" ++ nl
  ++ utf8 "🌤️ Conditions: "
  ++ field weather (utf8 "weather_description") (utf8 "N/A") ++ nl
  ++ utf8 "💨 Wind: "
  ++ field weather (utf8 "wind_speed_kmh") (utf8 "N/A") ++ utf8 " km/h" ++ nl
  ++ utf8 "💧 Humidity: "
  ++ field weather (utf8 "humidity_percent") (utf8 "N/A") ++ utf8 "%" ++ nl.

(** The generic display of a parsed value: a [json] code block. *)
Definition json_block (v : json) : str :=
  utf8 "✅ Weather data:" ++ nl ++ utf8 "```json" ++ nl
  ++ json_dumps_indent2 v ++ nl ++ utf8 "```".

Definition is_dict (v : json) : bool :=
  match v with JDict _ => true | _ => false end.

(** The transport was asked to open a new connection. *)
Definition opens_connection (url : str) (trace : list event) : bool :=
  existsb (fun ev => match ev with
                     | EvSseClient u => str_eqb u url
                     | _ => false
                     end) trace.

(** ** Stand-ins for the library routines, for closed examples

    They agree with the interpreter on the plain ASCII inputs the
    examples use. *)

Definition ascii_lower (s : str) : str :=
  map (fun c => if (65 <=? c) && (c <=? 90) then c + 32 else c) s.

Definition quoted (q : char) (s : str) : str := q :: s ++ [q].

Definition sample_repr_str (s : str) : str := quoted 39 s.

Definition doc_error : str :=
  utf8 "{" ++ quoted 34 (utf8 "error") ++ utf8 ": "
  ++ quoted 34 (utf8 "rate limited") ++ utf8 ", "
  ++ quoted 34 (utf8 "current_weather") ++ utf8 ": {"
  ++ quoted 34 (utf8 "temperature_celsius") ++ utf8 ": 20}}".

Definition doc_current : str :=
  utf8 "{" ++ quoted 34 (utf8 "current_weather") ++ utf8 ": {"
  ++ quoted 34 (utf8 "temperature_celsius") ++ utf8 ": 20}}".

Definition doc_status : str :=
  utf8 "{" ++ quoted 34 (utf8 "status") ++ utf8 ": "
  ++ quoted 34 (utf8 "ok") ++ utf8 "}".

Definition doc_array : str := utf8 "[1, 2]".

Definition sample_documents : list (str * json) :=
  [ (doc_error,
     JDict [(utf8 "error", JStr (utf8 "rate limited"));
            (utf8 "current_weather",
             JDict [(utf8 "temperature_celsius", JInt 20)])]);
    (doc_current,
     JDict [(utf8 "current_weather",
             JDict [(utf8 "temperature_celsius", JInt 20)])]);
    (doc_status, JDict [(utf8 "status", JStr (utf8 "ok"))]);
    (doc_array, JList [JInt 1; JInt 2]) ].

Definition sample_loads (text : str) : result json :=
  match dict_lookup text sample_documents with
  | Some v => Ok v
  | None => Raise (mkExn JSONDecodeError
                     (utf8 "Expecting value: line 1 column 1 (char 0)"))
  end.

Definition spaces (n : nat) : str := repeat 32 n.

Fixpoint sample_dumps_at (indent : nat) (v : json) : str :=
  match v with
  | JNull => utf8 "null"
  | JBool true => utf8 "true"
  | JBool false => utf8 "false"
  | JInt z => str_of_int z
  | JFloat r => r
  | JStr s => quoted 34 s
  | JList [] => utf8 "[]"
  | JList items =>
      utf8 "[" ++ nl
      ++ join (utf8 "," ++ nl)
           (map (fun x => spaces (indent + 2) ++ sample_dumps_at (indent + 2) x)
              items)
      ++ nl ++ spaces indent ++ utf8 "]"
  | JDict [] => utf8 "{}"
  | JDict items =>
      utf8 "{" ++ nl
      ++ join (utf8 "," ++ nl)
           (map (fun kv => spaces (indent + 2) ++ quoted 34 (fst kv) ++ utf8 ": "
                           ++ sample_dumps_at (indent + 2) (snd kv))
              items)
      ++ nl ++ spaces indent ++ utf8 "}"
  end.

Definition sample_dumps (v : json) : str := sample_dumps_at 0 v.

(** A content item that has a [text] attribute only. *)
Definition text_item (text : str) : content_item :=
  mkItem (Some text) None (utf8 "TextContent").

Definition sample_tools : list Tool :=
  [mkTool (utf8 "list_cities"); mkTool (utf8 "get_Weather_forecast");
   mkTool (utf8 "weather_alerts")].

(** A server that answers every call, advertising three tools. *)
Definition sample_remote : Remote :=
  {| on_aclose := Ok tt;
     on_sse_client := Ok (ReadStream, WriteStream);
     on_session_enter := Ok tt;
     on_initialize := Ok tt;
     on_list_tools := Ok sample_tools;
     on_call_tool := fun _ _ => Ok (mkResult (ContentList [text_item doc_current])) |}.

Definition timeout_error : exn := mkExn OtherException (utf8 "timed out").

(** The same server when releasing the previous connection fails. *)
Definition remote_failing_release : Remote :=
  {| on_aclose := Raise timeout_error;
     on_sse_client := on_sse_client sample_remote;
     on_session_enter := on_session_enter sample_remote;
     on_initialize := on_initialize sample_remote;
     on_list_tools := on_list_tools sample_remote;
     on_call_tool := on_call_tool sample_remote |}.

(** The same server when the capability negotiation fails. *)
Definition remote_failing_initialize : Remote :=
  {| on_aclose := on_aclose sample_remote;
     on_sse_client := on_sse_client sample_remote;
     on_session_enter := on_session_enter sample_remote;
     on_initialize := Raise timeout_error;
     on_list_tools := on_list_tools sample_remote;
     on_call_tool := on_call_tool sample_remote |}.

Definition fresh_world : World := mkWorld init_client [].

(** The world after one successful [connect], and the exit stack the
    client then holds. *)
Definition connected_world : World := snd (connect sample_remote fresh_world).

Definition connected_stack : AsyncExitStack :=
  mkStack [SessionContext (mkSession ReadStream WriteStream);
           SseTransport (server_url init_client)].

(** A connected client whose server advertises no weather tool. *)
Definition world_without_weather_tool : World :=
  mkWorld (set_tools [mkTool (utf8 "list_cities")] (self connected_world))
          (calls connected_world).

Definition nested_item : content_item :=
  mkItem None (Some (utf8 "B")) (utf8 "EmbeddedResource").

Definition bare_item : content_item :=
  mkItem None None (utf8 "ImageContent").

(** The calls made between two worlds. *)
Definition new_calls (before after : World) : list event :=
  skipn (List.length (calls before)) (calls after).

(** ** Further notions: the rest of the client's behaviour *)

(** A string that neither starts nor ends with whitespace. *)
Definition no_edge_space (s : str) : bool :=
  match s with
  | [] => true
  | c :: _ => negb (isspace c) && negb (isspace (last s c))
  end.

Definition is_call_tool (ev : event) : bool :=
  match ev with EvCallTool _ _ => true | _ => false end.

(** The contexts that a [connect] has entered by the time it ends: none
    when the release or the transport fails, the transport alone when the
    session cannot be entered, both otherwise. *)
Definition entered_contexts (net : Remote) (c : SimpleMCPClient) : list resource :=
  match release_outcome net c with
  | Raise _ => []
  | Ok _ =>
  match on_sse_client net with
  | Raise _ => []
  | Ok (r, wr) =>
  match on_session_enter net with
  | Raise _ => [SseTransport (server_url c)]
  | Ok _ => [SessionContext (mkSession r wr); SseTransport (server_url c)]
  end end end.

(** The calls of a [connect] in which no step fails. *)
Definition connect_calls (c : SimpleMCPClient) : list event :=
  match exit_stack c with
  | Some stack => [EvAclose (contexts stack)]
  | None => []
  end
  ++ [EvSseClient (server_url c); EvSessionEnter; EvInitialize; EvListTools].

(** The five-line summary of an answer in the older format. *)
Definition legacy_summary (parsed : list (str * json)) : str :=
  utf8 "🌍 **" ++ field parsed (utf8 "location") (utf8 "Unknown") ++ utf8 "**"
  ++ nl ++ nl
  ++ utf8 "🌡️ Temperature: "
  ++ field parsed (utf8 "temperature (°C)") (utf8 "N/A") ++ utf8 "°C" ++ nl
  ++ utf8 "🌤️ Weather Code: " ++ field parsed (utf8 "weather_code") (utf8 "N/A") ++ nl
  ++ utf8 "🕐 Timezone: " ++ field parsed (utf8 "timezone") (utf8 "N/A") ++ nl
  ++ utf8 "🕒 Local Time: " ++ field parsed (utf8 "local_time") (utf8 "N/A") ++ nl.

(** The plain code block around text that is not JSON. *)
Definition text_block (content_text : str) : str :=
  utf8 "✅ Weather data:" ++ nl ++ utf8 "```" ++ nl
  ++ content_text ++ nl ++ utf8 "```".

(** The two handlers that the interface binds to the global client
    (lines 137-138 and 189-204): the connect button, and the weather button
    or the submission of the location box. Each request comes with what the
    remote side answers during it. *)
Inductive request :=
| ReqConnect (net : Remote)
| ReqGetWeather (net : Remote) (location : str).

Definition handle (r : request) : M str :=
  match r with
  | ReqConnect net => connect net
  | ReqGetWeather net location => get_weather net location
  end.

(** The client after a sequence of requests, served one after the other. *)
Fixpoint serve (requests : list request) (w : World) : World :=
  match requests with
  | [] => w
  | r :: rest => serve rest (snd (handle r w))
  end.

(** *** More stand-ins *)

Definition keyboard_interrupt : exn :=
  mkExn NotAnException (utf8 "KeyboardInterrupt").

(** The sample server when the negotiation is interrupted from outside. *)
Definition remote_interrupted_initialize : Remote :=
  {| on_aclose := on_aclose sample_remote;
     on_sse_client := on_sse_client sample_remote;
     on_session_enter := on_session_enter sample_remote;
     on_initialize := Raise keyboard_interrupt;
     on_list_tools := on_list_tools sample_remote;
     on_call_tool := on_call_tool sample_remote |}.

(** The sample server when the transport cannot be opened. *)
Definition remote_unreachable : Remote :=
  {| on_aclose := on_aclose sample_remote;
     on_sse_client := Raise timeout_error;
     on_session_enter := on_session_enter sample_remote;
     on_initialize := on_initialize sample_remote;
     on_list_tools := on_list_tools sample_remote;
     on_call_tool := on_call_tool sample_remote |}.

(** The sample server with another answer to every tool call. *)
Definition remote_answering (res : result CallToolResult) : Remote :=
  {| on_aclose := on_aclose sample_remote;
     on_sse_client := on_sse_client sample_remote;
     on_session_enter := on_session_enter sample_remote;
     on_initialize := on_initialize sample_remote;
     on_list_tools := on_list_tools sample_remote;
     on_call_tool := fun _ _ => res |}.

(** The sample server advertising other tools. *)
Definition remote_advertising (advertised : list Tool) : Remote :=
  {| on_aclose := on_aclose sample_remote;
     on_sse_client := on_sse_client sample_remote;
     on_session_enter := on_session_enter sample_remote;
     on_initialize := on_initialize sample_remote;
     on_list_tools := Ok advertised;
     on_call_tool := on_call_tool sample_remote |}.

Definition doc_null_weather : str :=
  utf8 "{" ++ quoted 34 (utf8 "current_weather") ++ utf8 ": null}".

Definition doc_legacy : str :=
  utf8 "{" ++ quoted 34 (utf8 "temperature (°C)") ++ utf8 ": 21.5, "
  ++ quoted 34 (utf8 "timezone") ++ utf8 ": "
  ++ quoted 34 (utf8 "Europe/Berlin") ++ utf8 "}".

Definition doc_null_error : str :=
  utf8 "{" ++ quoted 34 (utf8 "error") ++ utf8 ": null, "
  ++ quoted 34 (utf8 "current_weather") ++ utf8 ": {"
  ++ quoted 34 (utf8 "temperature_celsius") ++ utf8 ": 20}}".

(** An integer literal of 4301 digits: [json.loads] refuses it with a
    [ValueError], not a [JSONDecodeError]. *)
Definition doc_huge_int : str := repeat 57 4301.

Definition more_documents : list (str * json) :=
  [ (doc_null_weather, JDict [(utf8 "current_weather", JNull)]);
    (doc_null_error,
     JDict [(utf8 "error", JNull);
            (utf8 "current_weather",
             JDict [(utf8 "temperature_celsius", JInt 20)])]);
    (doc_legacy,
     JDict [(utf8 "temperature (°C)", JFloat (utf8 "21.5"));
            (utf8 "timezone", JStr (utf8 "Europe/Berlin"))]) ].

Definition sample_loads_more (text : str) : result json :=
  if str_eqb text doc_huge_int then
    Raise (mkExn ValueError
             (utf8 "Exceeds the limit (4300 digits) for integer string conversion"))
  else
    match dict_lookup text more_documents with
    | Some v => Ok v
    | None => sample_loads text
    end.

(** ** Facts about the string primitives *)

Lemma char_in_In (c : char) (s : str) : char_in c s = true <-> In c s.
Proof.
  unfold char_in. rewrite existsb_exists. split.
  - intros [x [Hx Heq]]. apply N.eqb_eq in Heq. now subst.
  - intros H. exists c. split; [assumption | apply N.eqb_refl].
Qed.

Lemma char_in_not_In (c : char) (s : str) : ~ In c s -> char_in c s = false.
Proof.
  intros H. destruct (char_in c s) eqn:E; [| reflexivity].
  apply char_in_In in E. contradiction.
Qed.

Lemma not_In_char_in (c : char) (s : str) : char_in c s = false -> ~ In c s.
Proof.
  intros H Hin. apply char_in_In in Hin. congruence.
Qed.

Lemma cut_first_app (sep : char) (l r : str) :
  ~ In sep l -> cut_first sep (l ++ sep :: r) = Some (l, r).
Proof.
  induction l as [| c l IH]; intros Hl; simpl.
  - now rewrite N.eqb_refl.
  - destruct (c =? sep) eqn:E.
    + apply N.eqb_eq in E. exfalso. apply Hl. now left.
    + rewrite IH; [reflexivity |]. intros H. apply Hl. now right.
Qed.

Lemma lstrip_nil (s : str) : lstrip s = [] <-> forallb isspace s = true.
Proof.
  induction s as [| c s IH]; simpl.
  - tauto.
  - destruct (isspace c); simpl.
    + exact IH.
    + split; discriminate.
Qed.

Lemma forallb_rev {A} (f : A -> bool) (l : list A) :
  forallb f (rev l) = forallb f l.
Proof.
  induction l as [| a l IH]; simpl; [reflexivity |].
  rewrite forallb_app, IH. simpl. rewrite andb_true_r. apply andb_comm.
Qed.

Lemma rev_nil_inv {A} (l : list A) : rev l = [] -> l = [].
Proof.
  intros H. rewrite <- (rev_involutive l), H. reflexivity.
Qed.

(** [lstrip] stops at a character that is not whitespace. *)
Lemma lstrip_head (s : str) :
  match lstrip s with
  | [] => True
  | c :: _ => isspace c = false
  end.
Proof.
  induction s as [| c s IH]; simpl; [exact I |].
  destruct (isspace c) eqn:E; [exact IH | exact E].
Qed.

(** [not location.strip()] holds exactly for the empty and the
    whitespace-only strings. *)
Lemma strip_nil (s : str) : strip s = [] <-> forallb isspace s = true.
Proof.
  unfold strip, rstrip. split.
  - intros H. apply rev_nil_inv in H. apply lstrip_nil in H.
    rewrite forallb_rev in H.
    pose proof (lstrip_head s) as Hh.
    destruct (lstrip s) as [| c t] eqn:E.
    + now apply lstrip_nil.
    + simpl in H. rewrite Hh in H. discriminate.
  - intros H. apply lstrip_nil in H. rewrite H. reflexivity.
Qed.

Lemma cut_first_In (sep : char) (s : str) :
  In sep s ->
  exists l r, s = l ++ sep :: r /\ ~ In sep l /\ cut_first sep s = Some (l, r).
Proof.
  induction s as [| c s IH]; intros H; [destruct H |].
  simpl. destruct (c =? sep) eqn:E.
  - apply N.eqb_eq in E. subst c. exists [], s. simpl.
    repeat split. intros [].
  - destruct H as [H | H]; [subst c; rewrite N.eqb_refl in E; discriminate |].
    destruct (IH H) as (l & r & Hs & Hl & Hc).
    exists (c :: l), r. rewrite Hc, Hs. simpl. repeat split.
    intros [Hx | Hx]; [| contradiction].
    subst c. rewrite N.eqb_refl in E. discriminate.
Qed.

(** The unpacking of line 68 never fails: the parse always yields a
    city and a country. *)
Lemma parse_location_total (location : str) :
  exists city country, parse_location location = Ok (city, country).
Proof.
  unfold parse_location, split1.
  destruct (char_in comma location) eqn:Hc.
  - apply char_in_In in Hc.
    destruct (cut_first_In _ _ Hc) as (l & r & _ & _ & E).
    rewrite E. simpl. now exists (strip l), (strip r).
  - now exists (strip location), [].
Qed.

(** ** C4: parsing the location *)

(** C4. A location that contains a comma is split at its first comma:
    the city is the part before it and the country the part after it,
    both stripped of surrounding whitespace. A location without a comma
    gives the stripped input as the city and the empty string as the
    country. *)
Theorem parse_location_first_comma (location : str) :
  (In comma location ->
   exists left right,
     location = left ++ comma :: right /\ ~ In comma left
     /\ parse_location location = Ok (strip left, strip right))
  /\ (forall left right,
      location = left ++ comma :: right -> ~ In comma left ->
      parse_location location = Ok (strip left, strip right))
  /\ (~ In comma location ->
      parse_location location = Ok (strip location, [])).
Proof.
  assert (Hsplit : forall l r,
             location = l ++ comma :: r -> ~ In comma l ->
             parse_location location = Ok (strip l, strip r)).
  { intros l r Hloc Hl. unfold parse_location, split1.
    assert (Hin : char_in comma location = true).
    { apply char_in_In. subst location. apply in_or_app. right. now left. }
    rewrite Hin. subst location. rewrite cut_first_app by assumption.
    reflexivity. }
  split; [| split].
  - intros Hin. destruct (cut_first_In _ _ Hin) as (l & r & Hs & Hl & _).
    exists l, r. auto.
  - exact Hsplit.
  - intros Hn. unfold parse_location.
    now rewrite char_in_not_In.
Qed.

(** ** Running the monad *)

Ltac run :=
  cbv [connect _connect get_weather _get_weather try_except_Exception
       bind ret raise lift get_self set_self record aclose push_context
       enter_sse_client enter_client_session session_initialize
       session_list_tools session_call_tool];
  cbn [self calls session connected tools exit_stack server_url contexts
       set_session set_connected set_tools set_exit_stack fst snd].

Lemma find_first_match {A} (f : A -> bool) (pre post : list A) (x : A) :
  Forall (fun y => f y = false) pre -> f x = true ->
  find f (pre ++ x :: post) = Some x.
Proof.
  induction 1 as [| y pre Hy _ IH]; intros Hx; simpl.
  - now rewrite Hx.
  - rewrite Hy. now apply IH.
Qed.

Lemma find_no_match {A} (f : A -> bool) (l : list A) :
  Forall (fun y => f y = false) l -> find f l = None.
Proof.
  induction 1 as [| y l Hy _ IH]; simpl; [reflexivity |].
  now rewrite Hy.
Qed.

(** ** C1: the two guards of [get_weather] *)

Lemma get_weather_not_connected (net : Remote) (location : str) (w : World) :
  connected (self w) = false ->
  get_weather net location w = (Ok msg_not_connected, w).
Proof.
  intros H. run. rewrite H. reflexivity.
Qed.

(** C1 (as amended). While [connected] is false, every call of
    [get_weather] returns the not-connected message and records no call
    on the transport. While [connected] is true, every call with an empty
    or whitespace-only location returns the empty-input message and
    records no call on the transport. *)
Theorem get_weather_guards (net : Remote) (location : str) (w : World) :
  (connected (self w) = false ->
   get_weather net location w = (Ok msg_not_connected, w)
   /\ calls (snd (get_weather net location w)) = calls w)
  /\ (connected (self w) = true -> blank location ->
      get_weather net location w = (Ok msg_empty_location, w)
      /\ calls (snd (get_weather net location w)) = calls w).
Proof.
  split.
  - intros H. rewrite get_weather_not_connected by assumption. auto.
  - intros H Hb. apply strip_nil in Hb.
    assert (E : get_weather net location w = (Ok msg_empty_location, w)).
    { run. rewrite H, Hb. reflexivity. }
    rewrite E. auto.
Qed.

(** ** [connect] *)

(** Case analysis on what the remote side answers to each step. *)
Ltac answers net :=
  destruct (on_aclose net) as [[] | ?] eqn:?;
  destruct (on_sse_client net) as [[? ?] | ?] eqn:?;
  destruct (on_session_enter net) as [[] | ?] eqn:?;
  destruct (on_initialize net) as [[] | ?] eqn:?;
  destruct (on_list_tools net) as [? | ?] eqn:?.

Ltac handled :=
  match goal with
  | H : Some _ = Some _ |- _ => injection H as ->
  | H : None = Some _ |- _ => discriminate H
  end;
  match goal with
  | H : is_Exception _ = true |- _ => rewrite H
  end.

Lemma connect_on_failure (net : Remote) (w : World) (e : exn) :
  first_failure net (self w) = Some e -> is_Exception e = true ->
  exists w',
    connect net w = (Ok (msg_connection_failed e), w')
    /\ connected (self w') = false
    /\ tools (self w') = tools (self w).
Proof.
  intros Hf He. unfold first_failure, release_outcome in Hf.
  run.
  destruct (exit_stack (self w)) as [stack |]; answers net; run;
    handled; eexists; repeat split.
Qed.

Lemma connect_on_success (net : Remote) (w : World) :
  first_failure net (self w) = None ->
  exists advertised w',
    on_list_tools net = Ok advertised
    /\ connect net w = (Ok (msg_connected (map name advertised)), w')
    /\ connected (self w') = true
    /\ tools (self w') = advertised
    /\ session (self w') <> None.
Proof.
  intros Hf. unfold first_failure, release_outcome in Hf.
  run.
  destruct (exit_stack (self w)) as [stack |]; answers net; run;
    try discriminate Hf; do 2 eexists; repeat split; discriminate.
Qed.

(** Only what is not an [Exception] can leave [connect]. *)
Lemma connect_raises_no_Exception (net : Remote) (w : World) (e : exn) :
  fst (connect net w) = Raise e -> is_Exception e = false.
Proof.
  run.
  destruct (exit_stack (self w)) as [stack |]; answers net; run;
    try discriminate;
    match goal with
    | |- context [is_Exception ?x] =>
        destruct (is_Exception x) eqn:E; cbn [fst]; intros H;
        [discriminate H | injection H as <-; exact E]
    end.
Qed.

(** A client that claims to be connected holds a session: the invariant
    that gives [_get_weather] something to call. *)
Lemma connect_keeps_session (net : Remote) (w : World) :
  (connected (self w) = true -> session (self w) <> None) ->
  connected (self (snd (connect net w))) = true ->
  session (self (snd (connect net w))) <> None.
Proof.
  intros Hinv. run.
  destruct (exit_stack (self w)) as [stack |]; answers net; run;
    repeat match goal with
      | |- context [is_Exception ?x] => destruct (is_Exception x)
      end;
    run; try discriminate; exact Hinv.
Qed.

(** The release of the previous resource is the first call of
    [connect], and the transport is opened right after it when the
    release succeeds. *)
Lemma connect_trace (net : Remote) (w : World) (stack : AsyncExitStack) :
  exit_stack (self w) = Some stack ->
  (exists rest,
      calls (snd (connect net w)) = calls w ++ EvAclose (contexts stack) :: rest)
  /\ (on_aclose net = Ok tt ->
      exists rest,
        calls (snd (connect net w))
        = calls w ++ EvAclose (contexts stack)
                  :: EvSseClient (server_url (self w)) :: rest).
Proof.
  intros Hs. run. rewrite Hs.
  split; [| intros Hr; rewrite Hr]; answers net; run;
    try discriminate;
    repeat match goal with
      | |- context [is_Exception ?x] => destruct (is_Exception x)
      end;
    cbn [snd calls]; rewrite <- ?app_assoc; cbn [app];
    eexists; reflexivity.
Qed.

Lemma connect_release_fails (net : Remote) (w : World)
      (stack : AsyncExitStack) (e : exn) :
  exit_stack (self w) = Some stack ->
  on_aclose net = Raise e -> is_Exception e = true ->
  connect net w
  = (Ok (msg_connection_failed e),
     mkWorld (set_connected false
                (set_exit_stack (Some (mkStack [])) (self w)))
             (calls w ++ [EvAclose (contexts stack)])).
Proof.
  intros Hs Hr He. run. rewrite Hs. run. rewrite Hr, He. reflexivity.
Qed.

(** ** [_get_weather]: tool selection and the call *)

Lemma _get_weather_world (net : Remote) (location : str) (w : World)
      (t : Tool) (s : ClientSession) (city country : str) :
  find is_weather_tool (tools (self w)) = Some t ->
  session (self w) = Some s ->
  parse_location location = Ok (city, country) ->
  snd (_get_weather net location w)
  = mkWorld (self w)
            (calls w ++ [EvCallTool (name t) (weather_params city country)]).
Proof.
  intros Hf Hs Hp. run. rewrite Hp, Hf. run. rewrite Hs. run.
  destruct (on_call_tool net (name t) (weather_params city country)) as [res | e].
  - destruct (normalize res) as [out | e]; [reflexivity |].
    destruct (is_Exception e); reflexivity.
  - destruct (is_Exception e); reflexivity.
Qed.

Lemma _get_weather_no_tool (net : Remote) (location : str) (w : World) :
  find is_weather_tool (tools (self w)) = None ->
  _get_weather net location w = (Ok msg_tool_not_found, w).
Proof.
  intros Hf. run.
  destruct (parse_location_total location) as (city & country & Hp).
  rewrite Hp, Hf. destruct w. reflexivity.
Qed.

(** [get_weather] reads [self] and never writes it. *)
Lemma get_weather_keeps_self (net : Remote) (location : str) (w : World) :
  self (snd (get_weather net location w)) = self w.
Proof.
  run. destruct (connected (self w)); [| reflexivity]. cbn [negb].
  destruct (is_empty (strip location)); [reflexivity |].
  destruct (parse_location location) as [[city country] | e].
  - destruct (find is_weather_tool (tools (self w))) as [t |]; [| reflexivity].
    run. destruct (session (self w)); run.
    + destruct (on_call_tool net (name t) (weather_params city country))
        as [res | e].
      * destruct (normalize res) as [out | e]; [reflexivity |].
        destruct (is_Exception e); reflexivity.
      * destruct (is_Exception e); reflexivity.
    + reflexivity.
  - destruct (is_Exception e); reflexivity.
Qed.

Lemma get_weather_passes_guards (net : Remote) (location : str) (w : World) :
  connected (self w) = true -> ~ blank location ->
  get_weather net location w = _get_weather net location w.
Proof.
  intros Hc Hb. unfold get_weather, bind, get_self, ret.
  rewrite Hc. cbn [negb].
  destruct (strip location) as [| c rest] eqn:E; [| reflexivity].
  exfalso. apply Hb. now apply strip_nil.
Qed.

(** ** C2, C3, C10: failures of [connect] *)

(** C2. Whenever a step of [connect] fails with an exception (a network
    error, a negotiation error, a malformed response: any [Exception]),
    [connect] returns normally with the connection-failed message built
    from the exception's text, and leaves [connected] false. *)
Theorem connect_failure_is_reported (net : Remote) (w : World) (e : exn) :
  first_failure net (self w) = Some e -> is_Exception e = true ->
  exists w',
    connect net w = (Ok (msg_connection_failed e), w')
    /\ connected (self w') = false.
Proof.
  intros Hf He.
  destruct (connect_on_failure net w e Hf He) as (w' & Hr & Hc & _).
  exists w'. auto.
Qed.

(** C3 (as amended). When a previous connection resource exists,
    [connect] releases it before anything else; when the release
    succeeds, the next call opens the new connection; when the release
    itself fails, nothing is opened: [connect] returns the
    connection-failed message, with [connected] false. *)
Theorem connect_releases_previous_first (net : Remote) (w : World)
        (stack : AsyncExitStack) :
  exit_stack (self w) = Some stack ->
  (exists rest,
      calls (snd (connect net w)) = calls w ++ EvAclose (contexts stack) :: rest)
  /\ (on_aclose net = Ok tt ->
      exists rest,
        calls (snd (connect net w))
        = calls w ++ EvAclose (contexts stack)
                  :: EvSseClient (server_url (self w)) :: rest)
  /\ (forall e, on_aclose net = Raise e -> is_Exception e = true ->
      fst (connect net w) = Ok (msg_connection_failed e)
      /\ calls (snd (connect net w)) = calls w ++ [EvAclose (contexts stack)]
      /\ connected (self (snd (connect net w))) = false).
Proof.
  intros Hs. destruct (connect_trace net w stack Hs) as [H1 H2].
  split; [exact H1 | split; [exact H2 |]].
  intros e Hr He. rewrite (connect_release_fails net w stack e Hs Hr He).
  repeat split.
Qed.

(** C10. A failing [connect] leaves the cached tool list as it was and
    sets [connected] to false. After it, [get_weather] answers with the
    not-connected message and calls nothing, whereas the ungated
    [_get_weather] would still call the first weather tool of the stale
    list on the session at hand. *)
Theorem connect_failure_keeps_tools (net : Remote) (w : World) (e : exn) :
  first_failure net (self w) = Some e -> is_Exception e = true ->
  let w' := snd (connect net w) in
  tools (self w') = tools (self w)
  /\ connected (self w') = false
  /\ (forall net' location,
        get_weather net' location w' = (Ok msg_not_connected, w'))
  /\ (forall net' location t s,
        find is_weather_tool (tools (self w)) = Some t ->
        session (self w') = Some s ->
        exists city country,
          calls (snd (_get_weather net' location w'))
          = calls w' ++ [EvCallTool (name t) (weather_params city country)]).
Proof.
  intros Hf He.
  destruct (connect_on_failure net w e Hf He) as (w1 & Hr & Hc & Ht).
  rewrite Hr. cbn [snd]. repeat split.
  - exact Ht.
  - exact Hc.
  - intros net' location. now apply get_weather_not_connected.
  - intros net' location t s Hfind Hs.
    destruct (parse_location_total location) as (city & country & Hp).
    exists city, country.
    rewrite (_get_weather_world net' location w1 t s city country);
      [reflexivity | now rewrite Ht | exact Hs | exact Hp].
Qed.

(** ** C8: choice of the tool *)

(** C8. [_get_weather] invokes the first tool of the cached list, in
    list order, whose lower-cased name contains "weather", with the
    parsed city and country, and that is its only call; when no cached
    name contains "weather" it returns the tool-not-found message and
    calls nothing. A [get_weather] that passes its two guards is exactly
    this. *)
Theorem get_weather_first_weather_tool (net : Remote) (location : str)
        (w : World) :
  (forall pre t post s,
      tools (self w) = pre ++ t :: post ->
      Forall (fun x => is_weather_tool x = false) pre ->
      is_weather_tool t = true ->
      session (self w) = Some s ->
      exists city country,
        parse_location location = Ok (city, country)
        /\ calls (snd (_get_weather net location w))
           = calls w ++ [EvCallTool (name t) (weather_params city country)])
  /\ (Forall (fun x => is_weather_tool x = false) (tools (self w)) ->
      _get_weather net location w = (Ok msg_tool_not_found, w))
  /\ (connected (self w) = true -> ~ blank location ->
      get_weather net location w = _get_weather net location w).
Proof.
  split; [| split].
  - intros pre t post s Ht Hpre Hm Hs.
    destruct (parse_location_total location) as (city & country & Hp).
    exists city, country. split; [exact Hp |].
    rewrite (_get_weather_world net location w t s city country);
      [reflexivity | | exact Hs | exact Hp].
    rewrite Ht. now apply find_first_match.
  - intros Hnone. apply _get_weather_no_tool. now apply find_no_match.
  - apply get_weather_passes_guards.
Qed.

(** ** C6: extraction of the text *)

Lemma fold_left_fragments (items : list content_item) (acc : str) :
  fold_left (fun content_text content_item =>
               content_text ++ item_fragment content_item) items acc
  = acc ++ List.concat (map item_fragment items).
Proof.
  revert acc. induction items as [| it items IH]; intros acc; simpl.
  - now rewrite app_nil_r.
  - now rewrite IH, app_assoc.
Qed.

Lemma extract_content_list (items : list content_item) :
  extract_content (mkResult (ContentList items))
  = List.concat (map item_fragment items).
Proof.
  unfold extract_content. cbn [content].
  destruct items as [| it items]; [reflexivity |].
  now rewrite fold_left_fragments.
Qed.

(** C6. When the content of a result is a list of items, the extracted
    text is the concatenation, in list order, of one fragment per item:
    its text when it has a text attribute, else the string form of its
    nested content when it has one, else the string form of the item.
    For three items, the first with text "A", the second with only a
    nested content "B" and the third with neither, the extracted text is
    "A" followed by "B" followed by the string form of the third. *)
Theorem extract_content_concatenates :
  (forall items,
      exists fragments,
        Forall2 contributes items fragments
        /\ extract_content (mkResult (ContentList items))
           = List.concat fragments)
  /\ (forall first second third,
        item_text first = Some (utf8 "A") ->
        item_text second = None -> item_content second = Some (utf8 "B") ->
        item_text third = None -> item_content third = None ->
        extract_content (mkResult (ContentList [first; second; third]))
        = utf8 "A" ++ utf8 "B" ++ item_str third).
Proof.
  split.
  - intros items. exists (map item_fragment items). split.
    + induction items as [| it items IH]; simpl; constructor; [| exact IH].
      unfold item_fragment.
      destruct (item_text it) as [t |] eqn:Et; [now constructor |].
      destruct (item_content it) as [n |] eqn:En.
      * now apply contributes_nested.
      * now apply contributes_str.
    + apply extract_content_list.
  - intros a b c Ha Hb1 Hb2 Hc1 Hc2.
    rewrite extract_content_list. cbn [map List.concat].
    unfold item_fragment.
    rewrite Ha, Hb1, Hb2, Hc1, Hc2. now rewrite app_nil_r.
Qed.

(** ** C5, C7, C9: the shapes of a parsed payload *)

Lemma field_dict_get (d : list (str * json)) (key missing : str) :
  py_str (dict_get d key (JStr missing)) = field d key missing.
Proof.
  unfold dict_get, field. now destruct (dict_lookup key d).
Qed.

Lemma format_current_weather_dict (parsed weather : list (str * json)) :
  format_current_weather parsed (JDict weather)
  = Ok (weather_summary parsed weather).
Proof.
  unfold format_current_weather, value_get, weather_summary, NA.
  rewrite !field_dict_get, <- !app_assoc. reflexivity.
Qed.

(** C5. When the payload parses to a dict with an "error" key, the display
    text is the error marker followed by the string form of that key's
    value, whatever else the dict holds: no weather field is looked at,
    even when "current_weather" or a temperature key is present too. *)
Theorem error_key_comes_first (content_text : str)
        (parsed : list (str * json)) (err : json) :
  json_loads content_text = Ok (JDict parsed) ->
  dict_lookup (utf8 "error") parsed = Some err ->
  format_payload content_text = Ok (utf8 "❌ Error: " ++ py_str err)
  /\ (forall res,
        extract_content res = content_text -> content_text <> [] ->
        normalize res = Ok (utf8 "❌ Error: " ++ py_str err)).
Proof.
  intros Hl He.
  assert (E : format_payload content_text = Ok (utf8 "❌ Error: " ++ py_str err)).
  { unfold format_payload, format_dict, dict_has. now rewrite Hl, He. }
  split; [exact E |].
  intros res Hx Hne. unfold normalize. rewrite Hx.
  destruct content_text; [contradiction | exact E].
Qed.

(** C7. When the payload parses to a dict without an "error" key whose
    "current_weather" is a dict, the display text is the fixed summary of
    location, temperature, conditions, wind and humidity, where each
    missing field of "current_weather" reads "N/A". For
    [{"current_weather": {"temperature_celsius": 20}}] the text contains
    "20°C", and "N/A" for conditions, wind and humidity. *)
Theorem current_weather_summary (content_text : str) :
  (forall parsed weather,
      json_loads content_text = Ok (JDict parsed) ->
      dict_has (utf8 "error") parsed = false ->
      dict_lookup (utf8 "current_weather") parsed = Some (JDict weather) ->
      format_payload content_text = Ok (weather_summary parsed weather))
  /\ (json_loads content_text
      = Ok (JDict [(utf8 "current_weather",
                    JDict [(utf8 "temperature_celsius", JInt 20)])]) ->
      exists out,
        format_payload content_text = Ok out
        /\ out = utf8 "🌍 **Unknown**" ++ nl ++ nl
                 ++ utf8 "🌡️ Temperature: 20°C" ++ nl
                 ++ utf8 "🌤️ Conditions: N/A" ++ nl
                 ++ utf8 "💨 Wind: N/A km/h" ++ nl
                 ++ utf8 "💧 Humidity: N/A%" ++ nl
        /\ contains (utf8 "20°C") out = true
        /\ contains (utf8 "Conditions: N/A") out = true
        /\ contains (utf8 "Wind: N/A") out = true
        /\ contains (utf8 "Humidity: N/A") out = true).
Proof.
  assert (G : forall parsed weather,
             json_loads content_text = Ok (JDict parsed) ->
             dict_has (utf8 "error") parsed = false ->
             dict_lookup (utf8 "current_weather") parsed = Some (JDict weather) ->
             format_payload content_text = Ok (weather_summary parsed weather)).
  { intros parsed weather Hl He Hw.
    unfold format_payload, format_dict. rewrite Hl, He.
    unfold dict_has. rewrite Hw. apply format_current_weather_dict. }
  split; [exact G |].
  intros Hl.
  exists (weather_summary
            [(utf8 "current_weather",
              JDict [(utf8 "temperature_celsius", JInt 20)])]
            [(utf8 "temperature_celsius", JInt 20)]).
  split; [apply (G _ _ Hl); vm_compute; reflexivity |].
  split; [vm_compute; reflexivity |].
  split; [vm_compute; reflexivity |].
  split; [vm_compute; reflexivity |].
  split; vm_compute; reflexivity.
Qed.

(** C9 (as amended). A payload that parses to a dict with none of the
    keys "error", "current_weather" and "temperature (°C)" is displayed as
    the pretty-printed JSON inside a [json] code block. A payload that
    parses to anything but a dict (a list, a number, a string, a boolean,
    null) is displayed as the raw-result header followed by the payload
    text itself. *)
Theorem unknown_shape_display (content_text : str) (v : json) :
  json_loads content_text = Ok v ->
  (forall parsed,
      v = JDict parsed ->
      dict_has (utf8 "error") parsed = false ->
      dict_has (utf8 "current_weather") parsed = false ->
      dict_has (utf8 "temperature (°C)") parsed = false ->
      format_payload content_text = Ok (json_block v))
  /\ (is_dict v = false ->
      format_payload content_text
      = Ok (utf8 "✅ Raw result:" ++ nl ++ content_text)).
Proof.
  intros Hl. split.
  - intros parsed -> He Hw Ht.
    unfold format_payload, format_dict. rewrite Hl, He, Hw, Ht.
    reflexivity.
  - intros Hd. unfold format_payload. rewrite Hl.
    destruct v; try reflexivity. discriminate Hd.
Qed.

(** ** Further properties: [strip] and the parsed location *)

Lemma lstrip_split (s : str) :
  exists pre, s = pre ++ lstrip s /\ blank pre.
Proof.
  induction s as [| c s IH]; simpl.
  - now exists [].
  - destruct (isspace c) eqn:E.
    + destruct IH as (pre & Hs & Hb). exists (c :: pre). split.
      * simpl. now rewrite <- Hs.
      * unfold blank in *. simpl. now rewrite E, Hb.
    + now exists [].
Qed.

Lemma lstrip_app_nonspace (l : str) (c : char) :
  isspace c = false -> lstrip (l ++ [c]) = lstrip l ++ [c].
Proof.
  intros Hc. induction l as [| x l IH]; simpl.
  - now rewrite Hc.
  - destruct (isspace x); [exact IH | reflexivity].
Qed.

Lemma rstrip_cons_nonspace (c : char) (t : str) :
  isspace c = false -> rstrip (c :: t) = c :: rstrip t.
Proof.
  intros Hc. unfold rstrip. simpl.
  rewrite lstrip_app_nonspace by assumption.
  rewrite rev_app_distr. reflexivity.
Qed.

Lemma rstrip_split (s : str) :
  exists post, s = rstrip s ++ post /\ blank post.
Proof.
  destruct (lstrip_split (rev s)) as (pre & Hs & Hb).
  exists (rev pre). split.
  - unfold rstrip. rewrite <- rev_app_distr, <- Hs. now rewrite rev_involutive.
  - unfold blank in *. now rewrite forallb_rev.
Qed.

Lemma rstrip_last (s : str) (d : char) :
  rstrip s = [] \/ isspace (last (rstrip s) d) = false.
Proof.
  unfold rstrip. pose proof (lstrip_head (rev s)) as H.
  destruct (lstrip (rev s)) as [| h t]; [now left | right].
  simpl. now rewrite last_last.
Qed.

Lemma no_edge_space_strip (s : str) : no_edge_space (strip s) = true.
Proof.
  unfold strip. pose proof (lstrip_head s) as Hh.
  destruct (lstrip s) as [| c t]; [reflexivity |].
  rewrite rstrip_cons_nonspace by assumption.
  destruct (rstrip_last (c :: t) c) as [H | H];
    rewrite rstrip_cons_nonspace in H by assumption; [discriminate |].
  unfold no_edge_space. now rewrite Hh, H.
Qed.

Lemma rev_head_last (s : str) (c d : char) :
  exists r, rev (c :: s) = last (c :: s) d :: r.
Proof.
  destruct (exists_last (l := c :: s)) as (l' & a & E); [discriminate |].
  rewrite E, last_last, rev_app_distr. simpl. now exists (rev l').
Qed.

(** A string without whitespace at its ends is left alone. *)
Lemma strip_fixed (s : str) : no_edge_space s = true -> strip s = s.
Proof.
  destruct s as [| c t]; [reflexivity |].
  unfold no_edge_space. intros H. apply andb_prop in H as [H1 H2].
  apply negb_true_iff in H1, H2.
  unfold strip. cbn [lstrip]. rewrite H1.
  unfold rstrip. destruct (rev_head_last t c c) as (r & E).
  rewrite E. cbn [lstrip]. rewrite H2, <- E. apply rev_involutive.
Qed.

Lemma strip_split (s : str) :
  exists a b, s = a ++ strip s ++ b /\ blank a /\ blank b.
Proof.
  destruct (lstrip_split s) as (a & Ha & Hba).
  destruct (rstrip_split (lstrip s)) as (b & Hb & Hbb).
  exists a, b. unfold strip. now rewrite <- Hb.
Qed.

(** X1. [strip] removes whitespace from the two ends and nothing else: the
    input is the result between two runs of whitespace, the result neither
    starts nor ends with whitespace, and stripping again changes nothing. *)
Theorem strip_only_trims (s : str) :
  (exists a b, s = a ++ strip s ++ b /\ blank a /\ blank b)
  /\ no_edge_space (strip s) = true
  /\ strip (strip s) = strip s.
Proof.
  split; [apply strip_split | split; [apply no_edge_space_strip |]].
  apply strip_fixed, no_edge_space_strip.
Qed.

Lemma In_strip (x : char) (s : str) : In x (strip s) -> In x s.
Proof.
  intros H. destruct (strip_split s) as (a & b & E & _).
  rewrite E. apply in_or_app. right. apply in_or_app. now left.
Qed.

(** X2. Whatever the location, the city and country that are sent carry no
    whitespace at their ends and the city has no comma. Nothing but
    whitespace and the first comma is dropped: the location is the city
    between whitespace, then, when it has a comma, that comma and the
    country between whitespace; without a comma the country is empty. *)
Theorem parse_location_keeps_the_text (location city country : str) :
  parse_location location = Ok (city, country) ->
  no_edge_space city = true
  /\ no_edge_space country = true
  /\ ~ In comma city
  /\ (In comma location ->
      exists a b c d,
        location = a ++ city ++ b ++ comma :: c ++ country ++ d
        /\ blank a /\ blank b /\ blank c /\ blank d)
  /\ (~ In comma location ->
      country = []
      /\ exists a b, location = a ++ city ++ b /\ blank a /\ blank b).
Proof.
  intros Hp.
  destruct (char_in comma location) eqn:Hc.
  - apply char_in_In in Hc.
    destruct (cut_first_In _ _ Hc) as (l & r & Hs & Hl & Hcut).
    unfold parse_location, split1 in Hp.
    rewrite (proj2 (char_in_In comma location) Hc), Hcut in Hp.
    cbn [map] in Hp. injection Hp as <- <-.
    split; [apply no_edge_space_strip |].
    split; [apply no_edge_space_strip |].
    split; [intros H; apply Hl; now apply In_strip |].
    split; [| intros Hn; contradiction].
    intros _.
    destruct (strip_split l) as (a & b & El & Ha & Hb).
    destruct (strip_split r) as (c & d & Er & Hc' & Hd).
    exists a, b, c, d. repeat split; try assumption.
    rewrite Hs at 1. rewrite El at 1. rewrite Er at 1.
    now rewrite <- !app_assoc.
  - unfold parse_location in Hp. rewrite Hc in Hp. injection Hp as <- <-.
    split; [apply no_edge_space_strip |].
    split; [reflexivity |].
    split; [intros H; apply In_strip in H; apply char_in_In in H; congruence |].
    split; [intros H; apply char_in_In in H; congruence |].
    intros _. split; [reflexivity | apply strip_split].
Qed.

(** ** Further properties: [connect] *)

(** X3. When no step fails, [connect] returns the connected message with
    the advertised names, and leaves a client that is connected, holds the
    new session, caches exactly the advertised tools (whatever was cached
    before) and owns a stack with the session on top of the transport; its
    calls are the release of the previous stack, if any, then transport,
    session, initialize and list-tools, in this order. *)
Theorem connect_success (net : Remote) (w : World) :
  first_failure net (self w) = None ->
  exists advertised r wr,
    on_list_tools net = Ok advertised
    /\ on_sse_client net = Ok (r, wr)
    /\ connect net w
       = (Ok (msg_connected (map name advertised)),
          mkWorld
            (mkClient (Some (mkSession r wr)) true advertised
               (Some (mkStack [SessionContext (mkSession r wr);
                               SseTransport (server_url (self w))]))
               (server_url (self w)))
            (calls w ++ connect_calls (self w))).
Proof.
  intros Hf. unfold first_failure, release_outcome in Hf.
  unfold connect_calls. run.
  destruct (exit_stack (self w)) as [stack |]; answers net; run;
    try discriminate Hf; do 3 eexists;
    (split; [reflexivity |]); (split; [reflexivity |]);
    rewrite <- !app_assoc; reflexivity.
Qed.

Lemma connect_exit_stack (net : Remote) (w : World) :
  exit_stack (self (snd (connect net w)))
  = Some (mkStack (entered_contexts net (self w))).
Proof.
  unfold entered_contexts, release_outcome. run.
  destruct (exit_stack (self w)) as [stack |]; answers net; run;
    repeat match goal with
      | |- context [is_Exception ?x] => destruct (is_Exception x)
      end;
    reflexivity.
Qed.

(** X4. After any [connect], failed or not, the client owns a stack that
    holds exactly the contexts this [connect] entered, and the next
    [connect] starts by releasing exactly those: what a failed attempt had
    opened is not forgotten. *)
Theorem connect_releases_what_was_entered (net1 net2 : Remote) (w : World) :
  exit_stack (self (snd (connect net1 w)))
  = Some (mkStack (entered_contexts net1 (self w)))
  /\ exists rest,
      calls (snd (connect net2 (snd (connect net1 w))))
      = calls (snd (connect net1 w))
        ++ EvAclose (entered_contexts net1 (self w)) :: rest.
Proof.
  split; [apply connect_exit_stack |].
  apply (connect_trace net2 (snd (connect net1 w))
           (mkStack (entered_contexts net1 (self w)))).
  apply connect_exit_stack.
Qed.

(** X5. A step that fails with something that is not an [Exception] (an
    interrupt, a cancellation) is not handled: it leaves [connect] as it
    is, and the [connected] flag and the cached tools stay what they were,
    so a client that was connected still claims to be. *)
Theorem connect_interrupted (net : Remote) (w : World) (e : exn) :
  first_failure net (self w) = Some e -> is_Exception e = false ->
  fst (connect net w) = Raise e
  /\ connected (self (snd (connect net w))) = connected (self w)
  /\ tools (self (snd (connect net w))) = tools (self w).
Proof.
  intros Hf He. unfold first_failure, release_outcome in Hf.
  run.
  destruct (exit_stack (self w)) as [stack |]; answers net; run;
    try discriminate Hf; injection Hf as ->; rewrite He;
    repeat split.
Qed.

(** What [connect] adds to the record of calls, and when it can leave the
    client connected. *)
Lemma connect_added_calls (net : Remote) (w : World) :
  exists added,
    calls (snd (connect net w)) = calls w ++ added
    /\ forallb (fun ev => negb (is_call_tool ev)) added = true
    /\ (connected (self (snd (connect net w))) = true ->
        connected (self w) = true \/ In EvListTools added).
Proof.
  run.
  destruct (exit_stack (self w)) as [stack |]; answers net; run;
    repeat match goal with
      | |- context [is_Exception ?x] => destruct (is_Exception x)
      end;
    cbn [snd calls self connected set_connected];
    rewrite <- ?app_assoc; cbn [app];
    eexists; (split; [reflexivity |]); (split; [reflexivity |]);
    intros H; try discriminate H; try (now left);
    right; cbn [In]; tauto.
Qed.

(** X6. [connect] never calls a tool: the calls it adds are all among
    release, transport, session, initialize and list-tools. *)
Theorem connect_never_calls_a_tool (net : Remote) (w : World) :
  exists added,
    calls (snd (connect net w)) = calls w ++ added
    /\ forallb (fun ev => negb (is_call_tool ev)) added = true.
Proof.
  destruct (connect_added_calls net w) as (added & H1 & H2 & _).
  now exists added.
Qed.

Lemma startswith_app (n post : str) : startswith n (n ++ post) = true.
Proof.
  induction n as [| c n IH]; simpl; [reflexivity |].
  now rewrite N.eqb_refl.
Qed.

Lemma contains_cons (n : str) (c : char) (hay : str) :
  contains n hay = true -> contains n (c :: hay) = true.
Proof.
  intros H. cbn [contains]. rewrite H. apply orb_true_r.
Qed.

(** [needle in hay] holds when [needle] sits somewhere in [hay]. *)
Lemma contains_app (n pre post : str) : contains n (pre ++ n ++ post) = true.
Proof.
  induction pre as [| c pre IH].
  - cbn [app]. destruct (n ++ post) as [| c t] eqn:E.
    + destruct n; [reflexivity | discriminate].
    + cbn [contains]. rewrite <- E, startswith_app. reflexivity.
  - cbn [app]. now apply contains_cons.
Qed.

Lemma join_In (sep x : str) (parts : list str) :
  In x parts -> exists pre post, join sep parts = pre ++ x ++ post.
Proof.
  induction parts as [| p ps IH]; intros H; [destruct H |].
  destruct ps as [| q ps'].
  - destruct H as [-> | []]. exists [], []. cbn [join app]. now rewrite app_nil_r.
  - destruct H as [-> | H].
    + exists [], (sep ++ join sep (q :: ps')). reflexivity.
    + destruct (IH H) as (pre & post & E).
      exists (p ++ sep ++ pre), post.
      change (join sep (p :: q :: ps')) with (p ++ sep ++ join sep (q :: ps')).
      rewrite E. now rewrite <- !app_assoc.
Qed.

(** X7. The message of a successful [connect] names every advertised
    tool. *)
Theorem connected_message_names_every_tool (net : Remote) (w : World)
        (advertised : list Tool) (t : Tool) :
  first_failure net (self w) = None ->
  on_list_tools net = Ok advertised ->
  In t advertised ->
  exists msg,
    fst (connect net w) = Ok msg /\ contains (name t) msg = true.
Proof.
  intros Hf Hl Ht.
  destruct (connect_on_success net w Hf) as (adv & w' & Hl' & Hr & _).
  rewrite Hl in Hl'. injection Hl' as <-.
  exists (msg_connected (map name advertised)). rewrite Hr. split; [reflexivity |].
  destruct (join_In (utf8 ", ") (name t) (map name advertised)
              (in_map name _ _ Ht)) as (pre & post & E).
  unfold msg_connected. rewrite E.
  rewrite !app_assoc. rewrite <- (app_assoc _ (name t) post).
  apply contains_app.
Qed.

(** ** Further properties: [get_weather] as a whole *)

Lemma get_weather_calls (net : Remote) (location : str) (w : World) :
  calls (snd (get_weather net location w)) = calls w
  \/ exists t city country,
      connected (self w) = true
      /\ find is_weather_tool (tools (self w)) = Some t
      /\ parse_location location = Ok (city, country)
      /\ calls (snd (get_weather net location w))
         = calls w ++ [EvCallTool (name t) (weather_params city country)].
Proof.
  run. destruct (connected (self w)) eqn:Hc; [| now left]. cbn [negb].
  destruct (is_empty (strip location)); [now left |].
  destruct (parse_location_total location) as (city & country & Hp).
  rewrite Hp.
  destruct (find is_weather_tool (tools (self w))) as [t |] eqn:Hf; [| now left].
  run. destruct (session (self w)); run.
  - right. exists t, city, country. repeat split.
    destruct (on_call_tool net (name t) (weather_params city country))
      as [res | e].
    + destruct (normalize res) as [out | e]; [reflexivity |].
      destruct (is_Exception e); reflexivity.
    + destruct (is_Exception e); reflexivity.
  - now left.
Qed.

(** X8. A call of [get_weather] never changes the client, and it calls the
    transport at most once: either it records nothing, or the client is
    connected and it records one call of the first weather tool with the
    parsed city and country. *)
Theorem get_weather_footprint (net : Remote) (location : str) (w : World) :
  self (snd (get_weather net location w)) = self w
  /\ (calls (snd (get_weather net location w)) = calls w
      \/ exists t city country,
          connected (self w) = true
          /\ find is_weather_tool (tools (self w)) = Some t
          /\ parse_location location = Ok (city, country)
          /\ calls (snd (get_weather net location w))
             = calls w ++ [EvCallTool (name t) (weather_params city country)]).
Proof.
  split; [apply get_weather_keeps_self | apply get_weather_calls].
Qed.




(** X10. Once the guards are passed and a weather tool is cached, the
    answer of [get_weather] follows the tool call: an [Exception] raised by
    the call, or by the normalizer on its result, becomes the
    failed-to-get-weather message with the exception's text; otherwise the
    normalizer's text is returned as it is. In each case the call is the
    only one made. *)
Theorem get_weather_follows_the_call (net : Remote) (location : str)
        (w : World) (t : Tool) (s : ClientSession) :
  connected (self w) = true -> ~ blank location ->
  find is_weather_tool (tools (self w)) = Some t ->
  session (self w) = Some s ->
  exists city country,
    parse_location location = Ok (city, country)
    /\ let after :=
         mkWorld (self w)
           (calls w ++ [EvCallTool (name t) (weather_params city country)]) in
       (forall e,
           on_call_tool net (name t) (weather_params city country) = Raise e ->
           is_Exception e = true ->
           get_weather net location w = (Ok (msg_failed e), after))
       /\ (forall res e,
             on_call_tool net (name t) (weather_params city country) = Ok res ->
             normalize res = Raise e -> is_Exception e = true ->
             get_weather net location w = (Ok (msg_failed e), after))
       /\ (forall res out,
             on_call_tool net (name t) (weather_params city country) = Ok res ->
             normalize res = Ok out ->
             get_weather net location w = (Ok out, after)).
Proof.
  intros Hc Hb Hf Hs.
  destruct (parse_location_total location) as (city & country & Hp).
  exists city, country. split; [exact Hp |].
  rewrite (get_weather_passes_guards net location w Hc Hb).
  cbv zeta. repeat split.
  - intros e Hcall He. run. rewrite Hp, Hf. run. rewrite Hs. run.
    now rewrite Hcall, He.
  - intros res e Hcall Hn He. run. rewrite Hp, Hf. run. rewrite Hs. run.
    now rewrite Hcall, Hn, He.
  - intros res out Hcall Hn. run. rewrite Hp, Hf. run. rewrite Hs. run.
    now rewrite Hcall, Hn.
Qed.

(** ** Further properties: extraction and display *)

Lemma extract_content_nil_list (items : list content_item) :
  Forall (fun it => item_fragment it = []) items ->
  extract_content (mkResult (ContentList items)) = [].
Proof.
  intros H. rewrite extract_content_list.
  induction H as [| it items Hit _ IH]; [reflexivity |].
  cbn [map List.concat]. now rewrite Hit, IH.
Qed.

(** X11. A result without a [content] attribute, with a content that is
    false, or with a list of items that all contribute the empty string
    (the empty list among them) is answered with the no-content message,
    and [json.loads] is not consulted. *)
Theorem nothing_extracted_is_no_content :
  normalize (mkResult NoContentAttr) = Ok msg_no_content
  /\ (forall obj,
        normalize (mkResult (ContentObject false obj)) = Ok msg_no_content)
  /\ (forall obj,
        item_text obj = Some [] ->
        normalize (mkResult (ContentObject true obj)) = Ok msg_no_content)
  /\ (forall items,
        Forall (fun it => item_fragment it = []) items ->
        normalize (mkResult (ContentList items)) = Ok msg_no_content).
Proof.
  split; [reflexivity |]. split; [reflexivity |]. split.
  - intros obj H. unfold normalize, extract_content. cbn [content].
    now rewrite H.
  - intros items H. unfold normalize.
    now rewrite extract_content_nil_list.
Qed.

(** X12. Extracted text that [json.loads] rejects with a
    [JSONDecodeError] is shown unchanged inside a plain code block; any
    other exception of [json.loads] leaves the normalizer as it is. *)
Theorem not_json_is_shown_as_text (res : CallToolResult) (e : exn) :
  extract_content res <> [] ->
  json_loads (extract_content res) = Raise e ->
  (is_JSONDecodeError e = true ->
   normalize res = Ok (text_block (extract_content res)))
  /\ (is_JSONDecodeError e = false -> normalize res = Raise e).
Proof.
  intros Hne Hl. unfold normalize, format_payload.
  destruct (extract_content res) as [| c t] eqn:E; [contradiction |].
  cbn [is_empty]. rewrite Hl.
  split; intros ->; reflexivity.
Qed.

(** X13. When ["current_weather"] is present but is not a dict (null, a
    number, a string, a list), formatting fails with the [AttributeError]
    of the missing [get], named after the value's type; neither the
    older format nor the generic display is tried. *)
Theorem current_weather_must_be_a_dict (content_text : str)
        (parsed : list (str * json)) (v : json) :
  json_loads content_text = Ok (JDict parsed) ->
  dict_has (utf8 "error") parsed = false ->
  dict_lookup (utf8 "current_weather") parsed = Some v ->
  is_dict v = false ->
  format_payload content_text
  = Raise (mkExn AttributeError
             (utf8 "'" ++ type_name v
              ++ utf8 "' object has no attribute 'get'")).
Proof.
  intros Hl He Hw Hd.
  unfold format_payload, format_dict. rewrite Hl, He.
  unfold dict_has. rewrite Hw.
  unfold format_current_weather, value_get.
  destruct v; try reflexivity. discriminate Hd.
Qed.

Lemma format_legacy_summary (parsed : list (str * json)) :
  format_legacy parsed = legacy_summary parsed.
Proof.
  unfold format_legacy, legacy_summary, NA.
  now rewrite !field_dict_get.
Qed.

(** X14. A dict without ["error"] and ["current_weather"] that has the
    key ["temperature (°C)"] is displayed in the older format: location,
    temperature, weather code, timezone and local time, with "Unknown" for
    a missing location and "N/A" for each other missing key. *)
Theorem legacy_format_summary (content_text : str) (parsed : list (str * json)) :
  json_loads content_text = Ok (JDict parsed) ->
  dict_has (utf8 "error") parsed = false ->
  dict_has (utf8 "current_weather") parsed = false ->
  dict_has (utf8 "temperature (°C)") parsed = true ->
  format_payload content_text = Ok (legacy_summary parsed).
Proof.
  intros Hl He Hw Ht.
  unfold format_payload, format_dict. rewrite Hl, He, Hw, Ht.
  now rewrite format_legacy_summary.
Qed.

(** X15. The error branch is taken on the presence of the key, not on
    the truth of its value: a null, false, zero or empty ["error"] is
    still reported as an error, in place of the weather the dict may
    hold. *)
Theorem falsy_error_is_still_an_error (content_text : str)
        (parsed : list (str * json)) (err : json) :
  json_loads content_text = Ok (JDict parsed) ->
  dict_lookup (utf8 "error") parsed = Some err ->
  (err = JNull ->
   format_payload content_text = Ok (utf8 "❌ Error: None"))
  /\ (err = JBool false ->
      format_payload content_text = Ok (utf8 "❌ Error: False"))
  /\ (err = JInt 0 ->
      format_payload content_text = Ok (utf8 "❌ Error: 0"))
  /\ (err = JStr [] ->
      format_payload content_text = Ok (utf8 "❌ Error: ")).
Proof.
  intros Hl He.
  assert (E : format_payload content_text = Ok (utf8 "❌ Error: " ++ py_str err)).
  { unfold format_payload, format_dict, dict_has. now rewrite Hl, He. }
  rewrite E.
  repeat split; intros ->; vm_compute; reflexivity.
Qed.

(** X16. The nested [content] of an object counts only inside a list: an
    object with no [text] that is the content itself is shown by its own
    string form, while the same object as the single item of a list is
    shown by its nested content. With a [text], both give the text. *)
Theorem nested_content_counts_only_in_a_list (obj : content_item) :
  (forall nested,
      item_text obj = None -> item_content obj = Some nested ->
      extract_content (mkResult (ContentObject true obj)) = item_str obj
      /\ extract_content (mkResult (ContentList [obj])) = nested)
  /\ (forall text,
        item_text obj = Some text ->
        extract_content (mkResult (ContentObject true obj)) = text
        /\ extract_content (mkResult (ContentList [obj])) = text).
Proof.
  split.
  - intros nested Ht Hn. rewrite extract_content_list.
    unfold extract_content, item_fragment. cbn [content map List.concat].
    rewrite Ht, Hn. now rewrite app_nil_r.
  - intros text Ht. rewrite extract_content_list.
    unfold extract_content, item_fragment. cbn [content map List.concat].
    rewrite Ht. now rewrite app_nil_r.
Qed.

(** X17. Extraction follows the list: the text of two lists of items put
    end to end is the text of the first followed by the text of the
    second. *)
Theorem extract_content_app (items1 items2 : list content_item) :
  extract_content (mkResult (ContentList (items1 ++ items2)))
  = extract_content (mkResult (ContentList items1))
    ++ extract_content (mkResult (ContentList items2)).
Proof.
  rewrite !extract_content_list, map_app. apply concat_app.
Qed.

(** ** Further properties: sequences of requests *)

(** X18. A [get_weather] after a successful [connect] works on the list
    this [connect] was given, whatever was cached before: without a
    weather tool in it, the answer is the tool-not-found message and
    nothing is called; otherwise its first weather tool is called. *)
Theorem get_weather_uses_the_latest_tools (net net' : Remote) (location : str)
        (w : World) (advertised : list Tool) :
  first_failure net (self w) = None ->
  on_list_tools net = Ok advertised ->
  ~ blank location ->
  let w1 := snd (connect net w) in
  (find is_weather_tool advertised = None ->
   get_weather net' location w1 = (Ok msg_tool_not_found, w1))
  /\ (forall t,
        find is_weather_tool advertised = Some t ->
        exists city country,
          calls (snd (get_weather net' location w1))
          = calls w1 ++ [EvCallTool (name t) (weather_params city country)]).
Proof.
  intros Hf Hl Hb.
  destruct (connect_on_success net w Hf) as (adv & w1 & Hl' & Hr & Hc & Ht & Hs).
  rewrite Hl in Hl'. injection Hl' as <-.
  rewrite Hr. cbn [snd].
  rewrite (get_weather_passes_guards net' location w1 Hc Hb).
  split.
  - intros Hnone. apply _get_weather_no_tool. now rewrite Ht.
  - intros t Hfind.
    destruct (parse_location_total location) as (city & country & Hp).
    destruct (session (self w1)) as [s |] eqn:Es; [| contradiction].
    exists city, country.
    rewrite (_get_weather_world net' location w1 t s city country);
      [reflexivity | now rewrite Ht | exact Es | exact Hp].
Qed.

Lemma connect_keeps_url (net : Remote) (w : World) :
  server_url (self (snd (connect net w))) = server_url (self w).
Proof.
  run.
  destruct (exit_stack (self w)) as [stack |]; answers net; run;
    repeat match goal with
      | |- context [is_Exception ?x] => destruct (is_Exception x)
      end;
    reflexivity.
Qed.

Lemma serve_keeps_invariant (requests : list request) (w : World) :
  (connected (self w) = true ->
   session (self w) <> None /\ exit_stack (self w) <> None) ->
  connected (self (serve requests w)) = true ->
  session (self (serve requests w)) <> None
  /\ exit_stack (self (serve requests w)) <> None.
Proof.
  revert w. induction requests as [| r rest IH]; intros w Hinv; [exact Hinv |].
  cbn [serve]. apply IH. destruct r as [net | net location]; cbn [handle].
  - intros Hc. split.
    + apply connect_keeps_session; [| exact Hc].
      intros H. now apply Hinv.
    + rewrite connect_exit_stack. discriminate.
  - rewrite get_weather_keeps_self. exact Hinv.
Qed.

Lemma serve_keeps_url (requests : list request) (w : World) :
  server_url (self (serve requests w)) = server_url (self w).
Proof.
  revert w. induction requests as [| r rest IH]; intros w; [reflexivity |].
  cbn [serve]. rewrite IH. destruct r as [net | net location]; cbn [handle].
  - apply connect_keeps_url.
  - now rewrite get_weather_keeps_self.
Qed.

(** X19. Whatever requests a fresh client has served, and however each
    of them ended, a client that says it is connected holds a session and
    an exit stack, and its server address is still the one it was built
    with. *)
Theorem served_client_is_consistent (requests : list request) :
  let w := serve requests fresh_world in
  (connected (self w) = true ->
   session (self w) <> None /\ exit_stack (self w) <> None)
  /\ server_url (self w) = server_url init_client.
Proof.
  cbv zeta. split.
  - apply serve_keeps_invariant. discriminate.
  - apply serve_keeps_url.
Qed.

Lemma call_tool_in_prefix (l added pre post : list event) (x : event) :
  forallb (fun ev => negb (is_call_tool ev)) added = true ->
  is_call_tool x = true ->
  l ++ added = pre ++ x :: post ->
  exists post', l = pre ++ x :: post'.
Proof.
  intros Hadd Hx E. apply app_eq_app in E as [m [[E1 E2] | [E1 E2]]].
  - destruct m as [| y m].
    + cbn [app] in E2. subst added. cbn [forallb] in Hadd.
      rewrite Hx in Hadd. discriminate.
    + cbn [app] in E2. injection E2 as <- _. now exists m.
  - subst added. rewrite forallb_app in Hadd. cbn [forallb] in Hadd.
    rewrite Hx in Hadd. cbn in Hadd. rewrite andb_false_r in Hadd.
    discriminate.
Qed.

Lemma serve_keeps_order (requests : list request) (w : World) :
  (connected (self w) = true -> In EvListTools (calls w)) ->
  (forall pre t p post,
      calls w = pre ++ EvCallTool t p :: post -> In EvListTools pre) ->
  forall pre t p post,
    calls (serve requests w) = pre ++ EvCallTool t p :: post ->
    In EvListTools pre.
Proof.
  revert w. induction requests as [| r rest IH]; intros w Hc Hord;
    [exact Hord |].
  cbn [serve]. apply IH; destruct r as [net | net location]; cbn [handle].
  - destruct (connect_added_calls net w) as (added & E & _ & Hconn).
    intros H. rewrite E. apply in_or_app.
    destruct (Hconn H) as [H' | H']; [left; now apply Hc | now right].
  - rewrite get_weather_keeps_self. intros H.
    destruct (get_weather_calls net location w)
      as [E | (t & city & country & _ & _ & _ & E)]; rewrite E.
    + now apply Hc.
    + apply in_or_app. left. now apply Hc.
  - destruct (connect_added_calls net w) as (added & E & Hadd & _).
    intros pre t p post H. rewrite E in H.
    destruct (call_tool_in_prefix _ _ pre post (EvCallTool t p) Hadd eq_refl H)
      as (post' & E').
    exact (Hord _ _ _ _ E').
  - intros pre t p post H.
    destruct (get_weather_calls net location w)
      as [E | (t' & city & country & Hconn & _ & _ & E)]; rewrite E in H.
    + exact (Hord _ _ _ _ H).
    + apply app_eq_app in H as [m [[E1 E2] | [E1 E2]]].
      * destruct m as [| y m].
        -- rewrite app_nil_r in E1. rewrite <- E1. now apply Hc.
        -- cbn [app] in E2. injection E2 as <- _.
           exact (Hord _ _ _ _ E1).
      * destruct m as [| y m].
        -- rewrite app_nil_r in E1. rewrite E1. now apply Hc.
        -- cbn [app] in E2. injection E2 as _ E2.
           destruct m; discriminate E2.
Qed.

(** X20. In the record of all the calls made while a fresh client
    serves any sequence of requests, every call of a tool comes after a
    request for the tool list: no tool is ever called before a [connect]
    has got as far as listing the tools. *)
Theorem tool_calls_follow_list_tools (requests : list request)
        (pre post : list event) (t : str) (p : list (str * str)) :
  calls (serve requests fresh_world) = pre ++ EvCallTool t p :: post ->
  In EvListTools pre.
Proof.
  apply serve_keeps_order.
  - discriminate.
  - intros pre' t' p' post' H. destruct pre'; discriminate H.
Qed.

(** X21. A client that is not connected is not changed by any number of
    weather requests, and no call is made for them. *)
Theorem weather_requests_while_disconnected (requests : list request)
        (w : World) :
  connected (self w) = false ->
  Forall (fun r => match r with
                   | ReqGetWeather _ _ => True
                   | ReqConnect _ => False
                   end) requests ->
  serve requests w = w.
Proof.
  intros Hc H. induction H as [| r rest Hr _ IH]; [reflexivity |].
  destruct r as [net | net location]; [destruct Hr |].
  cbn [serve handle]. now rewrite get_weather_not_connected.
Qed.

(** ** Further properties: the substring test *)

Lemma startswith_prefix (n hay : str) :
  startswith n hay = true -> exists post, hay = n ++ post.
Proof.
  revert hay. induction n as [| c n IH]; intros hay H.
  - now exists hay.
  - destruct hay as [| d hay]; [discriminate H |].
    cbn [startswith] in H. apply andb_prop in H as [H1 H2].
    apply N.eqb_eq in H1. subst d.
    destruct (IH hay H2) as (post & ->). now exists post.
Qed.

(** X22. The test [needle in hay] of line 74 holds exactly when [hay] is
    some prefix, then [needle], then some suffix. *)
Theorem contains_is_substring (needle hay : str) :
  contains needle hay = true
  <-> exists pre post, hay = pre ++ needle ++ post.
Proof.
  split.
  - induction hay as [| c hay IH]; intros H.
    + cbn [contains] in H. rewrite orb_false_r in H.
      destruct (startswith_prefix _ _ H) as (post & E). now exists [], post.
    + cbn [contains] in H. apply orb_prop in H as [H | H].
      * destruct (startswith_prefix _ _ H) as (post & E). now exists [], post.
      * destruct (IH H) as (pre & post & ->). now exists (c :: pre), post.
  - intros (pre & post & ->). apply contains_app.
Qed.

End Client.

(** ** Closed instances

    The theorems above at concrete inputs, with the stand-ins for the
    library routines, and the inputs on which three statements of the
    specification do not hold as written. *)

(** [get_weather_guards] on a fresh client, and on a connected client with
    a location of three spaces. *)
Lemma get_weather_guards_witness :
  (connected (self fresh_world) = false
   /\ get_weather ascii_lower sample_repr_str sample_loads sample_dumps
        sample_remote (utf8 "Berlin, Germany") fresh_world
      = (Ok msg_not_connected, fresh_world))
  /\ (connected (self connected_world) = true /\ blank (utf8 "   ")
      /\ get_weather ascii_lower sample_repr_str sample_loads sample_dumps
        sample_remote (utf8 "   ") connected_world
         = (Ok msg_empty_location, connected_world)).
Proof.
  split.
  - split; [reflexivity |].
    apply (proj1 (get_weather_guards ascii_lower sample_repr_str sample_loads
                    sample_dumps sample_remote (utf8 "Berlin, Germany")
                    fresh_world)).
    reflexivity.
  - split; [vm_compute; reflexivity |].
    split; [vm_compute; reflexivity |].
    apply (proj2 (get_weather_guards ascii_lower sample_repr_str sample_loads
                    sample_dumps sample_remote (utf8 "   ") connected_world));
      vm_compute; reflexivity.
Defined.

(** C1 as written fails: a whitespace-only location on a client that is
    not connected gets the not-connected message, not the empty-input
    message. *)
Lemma blank_location_while_disconnected :
  blank (utf8 "   ")
  /\ connected (self fresh_world) = false
  /\ fst (get_weather ascii_lower sample_repr_str sample_loads sample_dumps
        sample_remote (utf8 "   ") fresh_world)
     = Ok msg_not_connected
  /\ fst (get_weather ascii_lower sample_repr_str sample_loads sample_dumps
        sample_remote (utf8 "   ") fresh_world)
     <> Ok msg_empty_location.
Proof.
  split; [vm_compute; reflexivity |].
  split; [reflexivity |].
  split; [vm_compute; reflexivity |].
  vm_compute. intros H. discriminate H.
Qed.

Lemma parse_location_first_comma_witness :
  (exists left right,
      utf8 "London,UK" = left ++ comma :: right /\ ~ In comma left
      /\ parse_location (utf8 "London,UK") = Ok (strip left, strip right))
  /\ parse_location (utf8 " New York ,  USA, east ")
     = Ok (strip (utf8 " New York "), strip (utf8 "  USA, east "))
  /\ parse_location (utf8 "  Tokyo ") = Ok (strip (utf8 "  Tokyo "), []).
Proof.
  split; [| split].
  - apply (proj1 (parse_location_first_comma (utf8 "London,UK"))).
    apply char_in_In. vm_compute. reflexivity.
  - apply (proj1 (proj2 (parse_location_first_comma
                            (utf8 " New York ,  USA, east ")))).
    + vm_compute. reflexivity.
    + apply not_In_char_in. vm_compute. reflexivity.
  - apply (proj2 (proj2 (parse_location_first_comma (utf8 "  Tokyo ")))).
    apply not_In_char_in. vm_compute. reflexivity.
Defined.

Lemma connect_failure_is_reported_witness :
  exists w',
    connect remote_failing_initialize fresh_world
    = (Ok (msg_connection_failed timeout_error), w')
    /\ connected (self w') = false.
Proof.
  apply (connect_failure_is_reported remote_failing_initialize fresh_world
           timeout_error); reflexivity.
Defined.

Lemma connect_releases_previous_first_witness :
  exit_stack (self connected_world) = Some connected_stack
  /\ (exists rest,
        calls (snd (connect sample_remote connected_world))
        = calls connected_world
          ++ EvAclose (contexts connected_stack)
             :: EvSseClient (server_url (self connected_world)) :: rest)
  /\ (fst (connect remote_failing_release connected_world)
      = Ok (msg_connection_failed timeout_error)
      /\ calls (snd (connect remote_failing_release connected_world))
         = calls connected_world ++ [EvAclose (contexts connected_stack)]
      /\ connected (self (snd (connect remote_failing_release connected_world)))
         = false).
Proof.
  assert (H : exit_stack (self connected_world) = Some connected_stack)
    by (vm_compute; reflexivity).
  split; [exact H |]. split.
  - apply (proj1 (proj2 (connect_releases_previous_first sample_remote
                            connected_world connected_stack H))).
    reflexivity.
  - apply (proj2 (proj2 (connect_releases_previous_first remote_failing_release
                            connected_world connected_stack H))
             timeout_error); reflexivity.
Defined.

(** C3 as written fails: when releasing the previous resource raises,
    [connect] opens nothing new and reports a failed connection. *)
Lemma release_failure_blocks_reconnect :
  exit_stack (self connected_world) = Some connected_stack
  /\ on_aclose remote_failing_release = Raise timeout_error
  /\ new_calls connected_world
       (snd (connect remote_failing_release connected_world))
     = [EvAclose (contexts connected_stack)]
  /\ opens_connection (server_url (self connected_world))
       (new_calls connected_world
          (snd (connect remote_failing_release connected_world)))
     = false
  /\ fst (connect remote_failing_release connected_world)
     = Ok (msg_connection_failed timeout_error)
  /\ connected (self (snd (connect remote_failing_release connected_world)))
     = false.
Proof.
  repeat (split; [vm_compute; reflexivity |]).
  vm_compute. reflexivity.
Qed.

Lemma connect_failure_keeps_tools_witness :
  let w' := snd (connect remote_failing_initialize connected_world) in
  tools (self w') = sample_tools
  /\ connected (self w') = false
  /\ get_weather ascii_lower sample_repr_str sample_loads sample_dumps
       sample_remote (utf8 "Berlin, Germany") w'
     = (Ok msg_not_connected, w')
  /\ exists city country,
      calls (snd (_get_weather ascii_lower sample_repr_str sample_loads
                    sample_dumps sample_remote (utf8 "Berlin, Germany") w'))
      = calls w' ++ [EvCallTool (utf8 "get_Weather_forecast")
                       (weather_params city country)].
Proof.
  pose proof (connect_failure_keeps_tools ascii_lower sample_repr_str
                sample_loads sample_dumps remote_failing_initialize
                connected_world timeout_error) as H.
  assert (H1 : first_failure remote_failing_initialize (self connected_world)
               = Some timeout_error) by (vm_compute; reflexivity).
  assert (H2 : is_Exception timeout_error = true) by reflexivity.
  destruct (H H1 H2) as (Ht & Hc & Hg & Hs).
  split; [exact Ht |]. split; [exact Hc |]. split; [apply Hg |].
  apply (Hs sample_remote (utf8 "Berlin, Germany")
            (mkTool (utf8 "get_Weather_forecast"))
            (mkSession ReadStream WriteStream));
    vm_compute; reflexivity.
Defined.

Lemma get_weather_first_weather_tool_witness :
  (exists city country,
      parse_location (utf8 "Berlin, Germany") = Ok (city, country)
      /\ calls (snd (_get_weather ascii_lower sample_repr_str sample_loads
                       sample_dumps sample_remote (utf8 "Berlin, Germany")
                       connected_world))
         = calls connected_world
           ++ [EvCallTool (utf8 "get_Weather_forecast")
                 (weather_params city country)])
  /\ _get_weather ascii_lower sample_repr_str sample_loads sample_dumps
       sample_remote (utf8 "Berlin, Germany") world_without_weather_tool
     = (Ok msg_tool_not_found, world_without_weather_tool)
  /\ get_weather ascii_lower sample_repr_str sample_loads sample_dumps
       sample_remote (utf8 "Berlin, Germany") connected_world
     = _get_weather ascii_lower sample_repr_str sample_loads sample_dumps
         sample_remote (utf8 "Berlin, Germany") connected_world.
Proof.
  split; [| split].
  - apply (proj1 (get_weather_first_weather_tool ascii_lower sample_repr_str
                    sample_loads sample_dumps sample_remote
                    (utf8 "Berlin, Germany") connected_world)
             [mkTool (utf8 "list_cities")]
             (mkTool (utf8 "get_Weather_forecast"))
             [mkTool (utf8 "weather_alerts")]
             (mkSession ReadStream WriteStream)).
    + vm_compute. reflexivity.
    + constructor; [vm_compute; reflexivity | constructor].
    + vm_compute. reflexivity.
    + vm_compute. reflexivity.
  - apply (proj1 (proj2 (get_weather_first_weather_tool ascii_lower
                            sample_repr_str sample_loads sample_dumps
                            sample_remote (utf8 "Berlin, Germany")
                            world_without_weather_tool))).
    constructor; [vm_compute; reflexivity | constructor].
  - apply (proj2 (proj2 (get_weather_first_weather_tool ascii_lower
                            sample_repr_str sample_loads sample_dumps
                            sample_remote (utf8 "Berlin, Germany")
                            connected_world))).
    + vm_compute. reflexivity.
    + unfold blank. vm_compute. intros H. discriminate H.
Defined.

Lemma extract_content_concatenates_witness :
  extract_content
    (mkResult (ContentList [text_item (utf8 "A"); nested_item; bare_item]))
  = utf8 "A" ++ utf8 "B" ++ item_str bare_item.
Proof.
  apply (proj2 extract_content_concatenates); reflexivity.
Defined.

Lemma error_key_comes_first_witness :
  format_payload sample_repr_str sample_loads sample_dumps doc_error
  = Ok (utf8 "❌ Error: " ++ py_str sample_repr_str (JStr (utf8 "rate limited")))
  /\ normalize sample_repr_str sample_loads sample_dumps
       (mkResult (ContentList [text_item doc_error]))
     = Ok (utf8 "❌ Error: " ++ py_str sample_repr_str (JStr (utf8 "rate limited"))).
Proof.
  assert (H1 : sample_loads doc_error
               = Ok (JDict [(utf8 "error", JStr (utf8 "rate limited"));
                            (utf8 "current_weather",
                             JDict [(utf8 "temperature_celsius", JInt 20)])]))
    by (vm_compute; reflexivity).
  pose proof (error_key_comes_first sample_repr_str sample_loads sample_dumps
                doc_error _ (JStr (utf8 "rate limited")) H1 eq_refl)
    as [Hp Hn].
  split; [exact Hp |].
  apply Hn.
  - vm_compute. reflexivity.
  - vm_compute. intros H. discriminate H.
Defined.

Lemma current_weather_summary_witness :
  format_payload sample_repr_str sample_loads sample_dumps doc_current
  = Ok (weather_summary sample_repr_str
          [(utf8 "current_weather",
            JDict [(utf8 "temperature_celsius", JInt 20)])]
          [(utf8 "temperature_celsius", JInt 20)])
  /\ exists out,
      format_payload sample_repr_str sample_loads sample_dumps doc_current
      = Ok out
      /\ out = utf8 "🌍 **Unknown**" ++ nl ++ nl
               ++ utf8 "🌡️ Temperature: 20°C" ++ nl
               ++ utf8 "🌤️ Conditions: N/A" ++ nl
               ++ utf8 "💨 Wind: N/A km/h" ++ nl
               ++ utf8 "💧 Humidity: N/A%" ++ nl
      /\ contains (utf8 "20°C") out = true
      /\ contains (utf8 "Conditions: N/A") out = true
      /\ contains (utf8 "Wind: N/A") out = true
      /\ contains (utf8 "Humidity: N/A") out = true.
Proof.
  assert (H1 : sample_loads doc_current
               = Ok (JDict [(utf8 "current_weather",
                             JDict [(utf8 "temperature_celsius", JInt 20)])]))
    by (vm_compute; reflexivity).
  split.
  - apply (proj1 (current_weather_summary sample_repr_str sample_loads
                    sample_dumps doc_current) _ _ H1);
      vm_compute; reflexivity.
  - apply (proj2 (current_weather_summary sample_repr_str sample_loads
                    sample_dumps doc_current) H1).
Defined.

Lemma unknown_shape_display_witness :
  format_payload sample_repr_str sample_loads sample_dumps doc_status
  = Ok (json_block sample_dumps (JDict [(utf8 "status", JStr (utf8 "ok"))]))
  /\ format_payload sample_repr_str sample_loads sample_dumps doc_array
     = Ok (utf8 "✅ Raw result:" ++ nl ++ doc_array).
Proof.
  split.
  - apply (fun H =>
             proj1 (unknown_shape_display sample_repr_str sample_loads
                      sample_dumps doc_status
                      (JDict [(utf8 "status", JStr (utf8 "ok"))]) H)
                   [(utf8 "status", JStr (utf8 "ok"))] eq_refl);
      vm_compute; reflexivity.
  - apply (fun H =>
             proj2 (unknown_shape_display sample_repr_str sample_loads
                      sample_dumps doc_array (JList [JInt 1; JInt 2]) H));
      vm_compute; reflexivity.
Defined.

(** C9 as written fails: a payload that parses to a list is shown raw,
    not pretty-printed in a code block. *)
Lemma array_payload_is_shown_raw :
  sample_loads doc_array = Ok (JList [JInt 1; JInt 2])
  /\ format_payload sample_repr_str sample_loads sample_dumps doc_array
     = Ok (utf8 "✅ Raw result:" ++ nl ++ doc_array)
  /\ format_payload sample_repr_str sample_loads sample_dumps doc_array
     <> Ok (json_block sample_dumps (JList [JInt 1; JInt 2])).
Proof.
  split; [vm_compute; reflexivity |].
  split; [vm_compute; reflexivity |].
  vm_compute. intros H. discriminate H.
Qed.

(** ** Closed instances of the further properties *)

Lemma parse_location_keeps_the_text_witness :
  parse_location (utf8 " New York ,  USA, east ")
  = Ok (utf8 "New York", utf8 "USA, east")
  /\ no_edge_space (utf8 "New York") = true
  /\ no_edge_space (utf8 "USA, east") = true
  /\ ~ In comma (utf8 "New York").
Proof.
  assert (H : parse_location (utf8 " New York ,  USA, east ")
              = Ok (utf8 "New York", utf8 "USA, east"))
    by (vm_compute; reflexivity).
  split; [exact H |].
  destruct (parse_location_keeps_the_text _ _ _ H) as (H1 & H2 & H3 & _).
  split; [exact H1 | split; [exact H2 | exact H3]].
Defined.

Lemma connect_success_witness :
  exists advertised r wr,
    on_list_tools sample_remote = Ok advertised
    /\ on_sse_client sample_remote = Ok (r, wr)
    /\ connect sample_remote connected_world
       = (Ok (msg_connected (map name advertised)),
          mkWorld
            (mkClient (Some (mkSession r wr)) true advertised
               (Some (mkStack [SessionContext (mkSession r wr);
                               SseTransport (server_url (self connected_world))]))
               (server_url (self connected_world)))
            (calls connected_world ++ connect_calls (self connected_world))).
Proof.
  apply (connect_success sample_remote connected_world).
  vm_compute. reflexivity.
Defined.

Lemma connect_interrupted_witness :
  connected (self connected_world) = true
  /\ fst (connect remote_interrupted_initialize connected_world)
     = Raise keyboard_interrupt
  /\ connected (self (snd (connect remote_interrupted_initialize
                             connected_world)))
     = connected (self connected_world)
  /\ tools (self (snd (connect remote_interrupted_initialize connected_world)))
     = tools (self connected_world).
Proof.
  split; [vm_compute; reflexivity |].
  apply (connect_interrupted remote_interrupted_initialize connected_world
           keyboard_interrupt); vm_compute; reflexivity.
Defined.

Lemma connected_message_names_every_tool_witness :
  exists msg,
    fst (connect sample_remote fresh_world) = Ok msg
    /\ contains (utf8 "weather_alerts") msg = true.
Proof.
  apply (connected_message_names_every_tool sample_remote fresh_world
           sample_tools (mkTool (utf8 "weather_alerts"))).
  - reflexivity.
  - reflexivity.
  - right. right. left. reflexivity.
Defined.


Lemma get_weather_follows_the_call_witness :
  exists city country,
    parse_location (utf8 "Berlin, Germany") = Ok (city, country)
    /\ get_weather ascii_lower sample_repr_str sample_loads_more sample_dumps
         (remote_answering (Raise timeout_error)) (utf8 "Berlin, Germany")
         connected_world
       = (Ok (msg_failed timeout_error),
          mkWorld (self connected_world)
            (calls connected_world
             ++ [EvCallTool (utf8 "get_Weather_forecast")
                   (weather_params city country)]))
    /\ get_weather ascii_lower sample_repr_str sample_loads_more sample_dumps
         (remote_answering
            (Ok (mkResult (ContentList [text_item doc_null_weather]))))
         (utf8 "Berlin, Germany") connected_world
       = (Ok (msg_failed
                (mkExn AttributeError
                   (utf8 "'NoneType' object has no attribute 'get'"))),
          mkWorld (self connected_world)
            (calls connected_world
             ++ [EvCallTool (utf8 "get_Weather_forecast")
                   (weather_params city country)]))
    /\ get_weather ascii_lower sample_repr_str sample_loads_more sample_dumps
         (remote_answering
            (Ok (mkResult (ContentList [text_item (utf8 "sunny")]))))
         (utf8 "Berlin, Germany") connected_world
       = (Ok (text_block (utf8 "sunny")),
          mkWorld (self connected_world)
            (calls connected_world
             ++ [EvCallTool (utf8 "get_Weather_forecast")
                   (weather_params city country)])).
Proof.
  assert (Hc : connected (self connected_world) = true)
    by (vm_compute; reflexivity).
  assert (Hb : ~ blank (utf8 "Berlin, Germany"))
    by (unfold blank; vm_compute; intros H; discriminate H).
  assert (Hf : find (is_weather_tool ascii_lower) (tools (self connected_world))
               = Some (mkTool (utf8 "get_Weather_forecast")))
    by (vm_compute; reflexivity).
  assert (Hs : session (self connected_world)
               = Some (mkSession ReadStream WriteStream))
    by (vm_compute; reflexivity).
  destruct (get_weather_follows_the_call ascii_lower sample_repr_str
              sample_loads_more sample_dumps
              (remote_answering (Raise timeout_error))
              (utf8 "Berlin, Germany") connected_world _ _ Hc Hb Hf Hs)
    as (city & country & Hp & H1 & _).
  destruct (get_weather_follows_the_call ascii_lower sample_repr_str
              sample_loads_more sample_dumps
              (remote_answering
                 (Ok (mkResult (ContentList [text_item doc_null_weather]))))
              (utf8 "Berlin, Germany") connected_world _ _ Hc Hb Hf Hs)
    as (city2 & country2 & Hp2 & _ & H2 & _).
  destruct (get_weather_follows_the_call ascii_lower sample_repr_str
              sample_loads_more sample_dumps
              (remote_answering
                 (Ok (mkResult (ContentList [text_item (utf8 "sunny")]))))
              (utf8 "Berlin, Germany") connected_world _ _ Hc Hb Hf Hs)
    as (city3 & country3 & Hp3 & _ & _ & H3).
  rewrite Hp in Hp2, Hp3. injection Hp2 as <- <-. injection Hp3 as <- <-.
  exists city, country. split; [exact Hp |]. split; [| split].
  - apply H1; reflexivity.
  - apply (H2 (mkResult (ContentList [text_item doc_null_weather])));
      [reflexivity | vm_compute; reflexivity | reflexivity].
  - apply (H3 (mkResult (ContentList [text_item (utf8 "sunny")])));
      [reflexivity | vm_compute; reflexivity].
Defined.

Lemma nothing_extracted_is_no_content_witness :
  normalize sample_repr_str sample_loads sample_dumps
    (mkResult (ContentObject true (text_item [])))
  = Ok msg_no_content
  /\ normalize sample_repr_str sample_loads sample_dumps
       (mkResult (ContentList [text_item []; mkItem None (Some []) (utf8 "Blob")]))
     = Ok msg_no_content.
Proof.
  destruct (nothing_extracted_is_no_content sample_repr_str sample_loads
              sample_dumps) as (_ & _ & H3 & H4).
  split.
  - apply H3. reflexivity.
  - apply H4. repeat constructor.
Defined.

Lemma not_json_is_shown_as_text_witness :
  normalize sample_repr_str sample_loads sample_dumps
    (mkResult (ContentList [text_item (utf8 "plain text ");
                            text_item (utf8 "result")]))
  = Ok (text_block
          (extract_content
             (mkResult (ContentList [text_item (utf8 "plain text ");
                                     text_item (utf8 "result")]))))
  /\ normalize sample_repr_str sample_loads_more sample_dumps
       (mkResult (ContentObject true (text_item doc_huge_int)))
     = Raise (mkExn ValueError
                (utf8 "Exceeds the limit (4300 digits) for integer string conversion")).
Proof.
  split.
  - apply (fun H1 H2 =>
             proj1 (not_json_is_shown_as_text sample_repr_str sample_loads
                      sample_dumps
                      (mkResult (ContentList [text_item (utf8 "plain text ");
                                              text_item (utf8 "result")]))
                      (mkExn JSONDecodeError
                         (utf8 "Expecting value: line 1 column 1 (char 0)"))
                      H1 H2)).
    + vm_compute. intros H. discriminate H.
    + vm_compute. reflexivity.
    + reflexivity.
  - apply (fun H1 H2 =>
             proj2 (not_json_is_shown_as_text sample_repr_str sample_loads_more
                      sample_dumps
                      (mkResult (ContentObject true (text_item doc_huge_int)))
                      (mkExn ValueError
                         (utf8 "Exceeds the limit (4300 digits) for integer string conversion"))
                      H1 H2)).
    + vm_compute. intros H. discriminate H.
    + vm_compute. reflexivity.
    + reflexivity.
Defined.

Lemma current_weather_must_be_a_dict_witness :
  format_payload sample_repr_str sample_loads_more sample_dumps doc_null_weather
  = Raise (mkExn AttributeError
             (utf8 "'" ++ type_name JNull
              ++ utf8 "' object has no attribute 'get'")).
Proof.
  apply (current_weather_must_be_a_dict sample_repr_str sample_loads_more
           sample_dumps doc_null_weather
           [(utf8 "current_weather", JNull)] JNull);
    vm_compute; reflexivity.
Defined.

Lemma legacy_format_summary_witness :
  format_payload sample_repr_str sample_loads_more sample_dumps doc_legacy
  = Ok (legacy_summary sample_repr_str
          [(utf8 "temperature (°C)", JFloat (utf8 "21.5"));
           (utf8 "timezone", JStr (utf8 "Europe/Berlin"))]).
Proof.
  apply (legacy_format_summary sample_repr_str sample_loads_more sample_dumps
           doc_legacy); vm_compute; reflexivity.
Defined.

Lemma falsy_error_is_still_an_error_witness :
  format_payload sample_repr_str sample_loads_more sample_dumps doc_null_error
  = Ok (utf8 "❌ Error: None").
Proof.
  apply (fun H1 H2 =>
           proj1 (falsy_error_is_still_an_error sample_repr_str
                    sample_loads_more sample_dumps doc_null_error
                    [(utf8 "error", JNull);
                     (utf8 "current_weather",
                      JDict [(utf8 "temperature_celsius", JInt 20)])]
                    JNull H1 H2));
    [vm_compute; reflexivity | vm_compute; reflexivity | reflexivity].
Defined.

Lemma nested_content_counts_only_in_a_list_witness :
  (extract_content (mkResult (ContentObject true nested_item))
   = item_str nested_item
   /\ extract_content (mkResult (ContentList [nested_item])) = utf8 "B")
  /\ (extract_content (mkResult (ContentObject true (text_item (utf8 "A"))))
      = utf8 "A"
      /\ extract_content (mkResult (ContentList [text_item (utf8 "A")]))
         = utf8 "A").
Proof.
  split.
  - apply (proj1 (nested_content_counts_only_in_a_list nested_item));
      reflexivity.
  - apply (proj2 (nested_content_counts_only_in_a_list
                    (text_item (utf8 "A")))); reflexivity.
Defined.

Lemma get_weather_uses_the_latest_tools_witness :
  tools (self connected_world) = sample_tools
  /\ (let w1 := snd (connect (remote_advertising [mkTool (utf8 "list_cities")])
                       connected_world) in
      get_weather ascii_lower sample_repr_str sample_loads sample_dumps
        sample_remote (utf8 "Berlin, Germany") w1
      = (Ok msg_tool_not_found, w1))
  /\ (let w1 := snd (connect (remote_advertising
                                [mkTool (utf8 "WEATHER"); mkTool (utf8 "weather")])
                       connected_world) in
      exists city country,
        calls (snd (get_weather ascii_lower sample_repr_str sample_loads
                      sample_dumps sample_remote (utf8 "Berlin, Germany") w1))
        = calls w1 ++ [EvCallTool (utf8 "WEATHER") (weather_params city country)]).
Proof.
  assert (Hb : ~ blank (utf8 "Berlin, Germany"))
    by (unfold blank; vm_compute; intros H; discriminate H).
  split; [vm_compute; reflexivity |]. split.
  - apply (fun H1 H2 =>
             proj1 (get_weather_uses_the_latest_tools ascii_lower
                      sample_repr_str sample_loads sample_dumps
                      (remote_advertising [mkTool (utf8 "list_cities")])
                      sample_remote (utf8 "Berlin, Germany") connected_world
                      [mkTool (utf8 "list_cities")] H1 H2 Hb));
      vm_compute; reflexivity.
  - apply (fun H1 H2 =>
             proj2 (get_weather_uses_the_latest_tools ascii_lower
                      sample_repr_str sample_loads sample_dumps
                      (remote_advertising
                         [mkTool (utf8 "WEATHER"); mkTool (utf8 "weather")])
                      sample_remote (utf8 "Berlin, Germany") connected_world
                      [mkTool (utf8 "WEATHER"); mkTool (utf8 "weather")]
                      H1 H2 Hb) (mkTool (utf8 "WEATHER")));
      vm_compute; reflexivity.
Defined.

Lemma served_client_is_consistent_witness :
  let w := serve ascii_lower sample_repr_str sample_loads sample_dumps
             [ReqConnect sample_remote;
              ReqGetWeather sample_remote (utf8 "Berlin, Germany");
              ReqConnect remote_unreachable;
              ReqConnect sample_remote] fresh_world in
  connected (self w) = true
  /\ session (self w) <> None /\ exit_stack (self w) <> None.
Proof.
  cbv zeta. split; [vm_compute; reflexivity |].
  apply (served_client_is_consistent ascii_lower sample_repr_str sample_loads
           sample_dumps
           [ReqConnect sample_remote;
            ReqGetWeather sample_remote (utf8 "Berlin, Germany");
            ReqConnect remote_unreachable;
            ReqConnect sample_remote]).
  vm_compute. reflexivity.
Defined.

Lemma tool_calls_follow_list_tools_witness :
  calls (serve ascii_lower sample_repr_str sample_loads sample_dumps
           [ReqConnect sample_remote;
            ReqGetWeather sample_remote (utf8 "Berlin, Germany")] fresh_world)
  = [EvSseClient (server_url init_client); EvSessionEnter; EvInitialize;
     EvListTools]
    ++ EvCallTool (utf8 "get_Weather_forecast")
         (weather_params (utf8 "Berlin") (utf8 "Germany")) :: []
  /\ In EvListTools
       [EvSseClient (server_url init_client); EvSessionEnter; EvInitialize;
        EvListTools].
Proof.
  assert (H : calls (serve ascii_lower sample_repr_str sample_loads sample_dumps
                       [ReqConnect sample_remote;
                        ReqGetWeather sample_remote (utf8 "Berlin, Germany")]
                       fresh_world)
              = [EvSseClient (server_url init_client); EvSessionEnter;
                 EvInitialize; EvListTools]
                ++ EvCallTool (utf8 "get_Weather_forecast")
                     (weather_params (utf8 "Berlin") (utf8 "Germany")) :: [])
    by (vm_compute; reflexivity).
  split; [exact H |].
  exact (tool_calls_follow_list_tools ascii_lower sample_repr_str sample_loads
           sample_dumps _ _ _ _ _ H).
Defined.

Lemma weather_requests_while_disconnected_witness :
  serve ascii_lower sample_repr_str sample_loads sample_dumps
    [ReqGetWeather sample_remote (utf8 "Berlin, Germany");
     ReqGetWeather sample_remote []] fresh_world
  = fresh_world.
Proof.
  apply (weather_requests_while_disconnected ascii_lower sample_repr_str
           sample_loads sample_dumps).
  - reflexivity.
  - repeat constructor.
Defined.

Lemma contains_is_substring_witness :
  contains (utf8 "weather") (utf8 "get_weather_forecast") = true.
Proof.
  apply (proj2 (contains_is_substring (utf8 "weather")
                  (utf8 "get_weather_forecast"))).
  exists (utf8 "get_"), (utf8 "_forecast"). vm_compute. reflexivity.
Defined.
